(** * Forum API (src/main.py): a shallow embedding and its properties

    The handlers of [src/main.py] are embedded as functions of a small
    state-and-exception monad over the document store.  Python dictionaries
    (stored documents, filter documents, the collections of the database)
    are finite maps with string keys; exceptions are values of [exn];
    the [db] global of the [database] module is the state, [None] when no
    connection is held.

    Strings are sequences of bytes (the UTF-8 form of the Python text). *)

From stdpp Require Import base strings gmap list.
From Stdlib Require Import ZArith Lia.
From Stdlib.Strings Require Import Byte Ascii.

Local Open Scope string_scope.
Local Open Scope Z_scope.

(** ** bson.ObjectId: the store's native identifier

    [bson] is a third-party package.  An ObjectId holds bytes, twelve of
    them when the store assigned it; its [str] is the lowercase hexadecimal
    form of the bytes; [ObjectId(s)] on a [str] checks that [s] has 24
    characters and reads it with [bytes.fromhex], which skips ASCII white
    space before a pair of digits, and raises [InvalidId] when either
    fails. *)

Module Hex.

Definition digit (n : N) : ascii :=
  if (n <? 10)%N then ascii_of_N (48 + n) else ascii_of_N (87 + n).

Definition value (c : ascii) : option N :=
  let n := N_of_ascii c in
  if ((48 <=? n) && (n <=? 57))%N then Some (n - 48)%N
  else if ((97 <=? n) && (n <=? 102))%N then Some (n - 87)%N
  else if ((65 <=? n) && (n <=? 70))%N then Some (n - 55)%N
  else None.

Definition is_digit (c : ascii) : bool :=
  match value c with Some _ => true | None => false end.

(** binascii.hexlify *)
Fixpoint hexlify (bs : list byte) : string :=
  match bs with
  | [] => EmptyString
  | b :: bs' =>
      let n := Byte.to_N b in
      String (digit (n / 16)) (String (digit (n mod 16)) (hexlify bs'))
  end.

(** ASCII white space: space, tab, line feed, vertical tab, form feed,
    carriage return *)
Definition is_space (c : ascii) : bool :=
  let n := N_of_ascii c in ((n =? 32) || ((9 <=? n) && (n <=? 13)))%N.

(** bytes.fromhex: two hexadecimal digits per byte, in either case; white
    space before a pair is skipped, anything else is an error *)
Fixpoint fromhex (s : string) : option (list byte) :=
  match s with
  | EmptyString => Some []
  | String c1 rest1 =>
      if is_space c1 then fromhex rest1
      else
        match rest1 with
        | String c2 rest =>
            match value c1, value c2 with
            | Some hi, Some lo =>
                match Byte.of_N (16 * hi + lo), fromhex rest with
                | Some b, Some bs => Some (b :: bs)
                | _, _ => None
                end
            | _, _ => None
            end
        | EmptyString => None
        end
  end.

Fixpoint all_digits (s : string) : bool :=
  match s with
  | EmptyString => true
  | String c rest => is_digit c && all_digits rest
  end.

(** A character that is neither a hexadecimal digit nor white space
    occurs in the text. *)
Fixpoint has_foreign (s : string) : bool :=
  match s with
  | EmptyString => false
  | String c rest => negb (is_digit c || is_space c) || has_foreign rest
  end.

(** The text without its white space *)
Fixpoint unspaced (s : string) : string :=
  match s with
  | EmptyString => EmptyString
  | String c rest => if is_space c then unspaced rest else String c (unspaced rest)
  end.

End Hex.

(** The native identifier: the twelve bytes of an ObjectId. *)
Definition oid : Type := list byte.

Definition valid_oid (o : oid) : Prop := length o = 12%nat.

(** The exceptions that the handlers and what they call raise. *)
Inductive exn : Type :=
  | HTTPException (status_code : Z) (detail : string)
  | InvalidId (s : string)
  | ValidationError
  | TypeError
  | StoreUnavailable
  | InvalidArgument.

Inductive result (A : Type) : Type :=
  | Ok (a : A)
  | Raise (e : exn).
Arguments Ok {A} a.
Arguments Raise {A} e.

(** [str(oid)] *)
Definition oid_str (o : oid) : string := Hex.hexlify o.

(** [ObjectId(s)] for a [str] argument *)
Definition ObjectId (s : string) : result oid :=
  if (String.length s =? 24)%nat then
    match Hex.fromhex s with
    | Some bs => Ok bs
    | None => Raise (InvalidId s)
    end
  else Raise (InvalidId s).

(** A well-formed external identifier: 24 characters, all hexadecimal
    digits. *)
Definition well_formed_id (s : string) : bool :=
  (String.length s =? 24)%nat && Hex.all_digits s.

(** A text that cannot be read as an identifier: not 24 characters, or
    with a character that is neither a hexadecimal digit nor white space. *)
Definition id_rejected (s : string) : bool :=
  negb (String.length s =? 24)%nat || Hex.has_foreign s.

(** ** Python values and documents *)

Inductive value : Type :=
  | VNone
  | VStr (s : string)
  | VOid (o : oid)
  | VList (l : list string).

#[global] Instance byte_eq_decision : EqDecision byte := byte_eq_dec.
#[global] Instance value_eq_decision : EqDecision value.
Proof. solve_decision. Defined.
#[global] Instance exn_eq_decision : EqDecision exn.
Proof. solve_decision. Defined.

(** A document is a dictionary from field names to values. *)
Abbreviation doc := (gmap string value).

(** [d.get(k)]: [None] when the key is absent *)
Definition doc_get (d : doc) (k : string) : value := default VNone (d !! k).

(** [str(v)] *)
Module PyStr.

Definition squote : ascii := ascii_of_N 39.
Definition dquote : ascii := ascii_of_N 34.
Definition backslash : ascii := ascii_of_N 92.

Fixpoint contains (c : ascii) (s : string) : bool :=
  match s with
  | EmptyString => false
  | String c' rest => Ascii.eqb c c' || contains c rest
  end.

Definition quote_for (s : string) : ascii :=
  if contains squote s && negb (contains dquote s) then dquote else squote.

Definition escape (q c : ascii) : string :=
  let n := N_of_ascii c in
  if Ascii.eqb c q || Ascii.eqb c backslash then String backslash (String c EmptyString)
  else if (n =? 9)%N then "\t"
  else if (n =? 10)%N then "\n"
  else if (n =? 13)%N then "\r"
  else if ((n <? 32) || (n =? 127))%N then
    String backslash (String "x" (String (Hex.digit (n / 16)) (String (Hex.digit (n mod 16)) EmptyString)))
  else String c EmptyString.

Fixpoint escape_all (q : ascii) (s : string) : string :=
  match s with
  | EmptyString => EmptyString
  | String c rest => escape q c ++ escape_all q rest
  end.

(** [repr(s)] of a [str] of printable or ASCII text: bytes above 127 are
    copied, as Python does for printable characters; the escapes that it
    writes for non-printable characters above 127 are not modelled. *)
Definition repr (s : string) : string :=
  let q := quote_for s in
  String q (escape_all q s ++ String q EmptyString).

Fixpoint join (sep : string) (l : list string) : string :=
  match l with
  | [] => EmptyString
  | [x] => x
  | x :: rest => x ++ sep ++ join sep rest
  end.

Definition str (v : value) : string :=
  match v with
  | VNone => "None"
  | VStr s => s
  | VOid o => oid_str o
  | VList l => "[" ++ join ", " (map repr l) ++ "]"
  end.

End PyStr.

(** ** Schemas *)

(** Modelled from the spec: [schemas.Thread] ([schemas.py] is not among
    the sources).  A Thread has required [title], [author] and [content],
    an optional [category] and optional [tags], an ordered sequence of
    strings. *)
Record Thread : Type := {
  Thread_title : string;
  Thread_author : string;
  Thread_content : string;
  Thread_category : option string;
  Thread_tags : option (list string)
}.

(** Modelled from the spec: [schemas.Post] ([schemas.py] is not among the
    sources).  A Post has required [thread_id], [author] and [content]. *)
Record Post : Type := {
  Post_thread_id : string;
  Post_author : string;
  Post_content : string
}.

Definition ThreadCreate : Type := Thread.
Definition PostCreate : Type := Post.

Definition opt_value {A} (inj : A → value) (x : option A) : value :=
  match x with Some a => inj a | None => VNone end.

(** [payload.model_dump()]: every declared field, [None] for an unset
    optional one *)
Definition Thread_model_dump (p : Thread) : doc :=
  <["title" := VStr (Thread_title p)]>
  (<["author" := VStr (Thread_author p)]>
  (<["content" := VStr (Thread_content p)]>
  (<["category" := opt_value VStr (Thread_category p)]>
  (<["tags" := opt_value VList (Thread_tags p)]> ∅)))).

Definition Post_model_dump (p : Post) : doc :=
  <["thread_id" := VStr (Post_thread_id p)]>
  (<["author" := VStr (Post_author p)]>
  (<["content" := VStr (Post_content p)]> ∅)).

(** The output models of [main.py] *)
Record ThreadOut : Type := {
  ThreadOut_id : string;
  ThreadOut_title : string;
  ThreadOut_author : string;
  ThreadOut_content : string;
  ThreadOut_category : option string;
  ThreadOut_tags : option (list string)
}.

Record PostOut : Type := {
  PostOut_id : string;
  PostOut_thread_id : string;
  PostOut_author : string;
  PostOut_content : string
}.

(** ** The exception monad of pure code *)

#[global] Instance result_ret : MRet result := λ A a, Ok a.
#[global] Instance result_bind : MBind result := λ A B f r,
  match r with Ok a => f a | Raise e => Raise e end.

(** pydantic's validation of a [str], an [Optional[str]] and an
    [Optional[List[str]]] field *)
Definition validate_str (v : value) : result string :=
  match v with VStr s => Ok s | _ => Raise ValidationError end.

Definition validate_opt_str (v : value) : result (option string) :=
  match v with
  | VNone => Ok None
  | VStr s => Ok (Some s)
  | _ => Raise ValidationError
  end.

Definition validate_opt_list (v : value) : result (option (list string)) :=
  match v with
  | VNone => Ok None
  | VList l => Ok (Some l)
  | _ => Raise ValidationError
  end.

(** ** Presentation: stored documents to output models *)

Definition to_thread_out (d : doc) : result ThreadOut :=
  id ← validate_str (VStr (PyStr.str (doc_get d "_id")));
  title ← validate_str (doc_get d "title");
  author ← validate_str (doc_get d "author");
  content ← validate_str (doc_get d "content");
  category ← validate_opt_str (doc_get d "category");
  tags ← validate_opt_list (doc_get d "tags");
  Ok {| ThreadOut_id := id; ThreadOut_title := title;
        ThreadOut_author := author; ThreadOut_content := content;
        ThreadOut_category := category; ThreadOut_tags := tags |}.

Definition to_post_out (d : doc) : result PostOut :=
  id ← validate_str (VStr (PyStr.str (doc_get d "_id")));
  thread_id ← validate_str (VStr (PyStr.str (doc_get d "thread_id")));
  author ← validate_str (doc_get d "author");
  content ← validate_str (doc_get d "content");
  Ok {| PostOut_id := id; PostOut_thread_id := thread_id;
        PostOut_author := author; PostOut_content := content |}.

(** [[f(x) for x in xs]]: the first exception ends the comprehension *)
Fixpoint comprehension {A B} (f : A → result B) (xs : list A) : result (list B) :=
  match xs with
  | [] => Ok []
  | x :: rest =>
      y ← f x;
      ys ← comprehension f rest;
      Ok (y :: ys)
  end.

(** ** The document store

    A filter document maps a field name to a condition: a plain value
    (equality) or the operator document [{"$regex": p, "$options": o}]. *)

Inductive cond : Type :=
  | CEq (v : value)
  | CRegex (pattern options : string).

#[global] Instance cond_eq_decision : EqDecision cond.
Proof. solve_decision. Defined.

Abbreviation filter_doc := (gmap string cond).

(** One round trip to the store. *)
Inductive store_call : Type :=
  | FindOne (coll : string) (f : filter_doc)
  | Find (coll : string) (f : filter_doc) (limit : Z)
  | InsertOne (coll : string) (d : doc).

(** The store behind a connection handle: the collections, each in
    insertion order, the counter from which identifiers are assigned, and
    the round trips made so far, oldest first. *)
Record store : Type := {
  collections : gmap string (list doc);
  next_id : N;
  calls : list store_call
}.

(** [db[name]] *)
Definition collection (name : string) (st : store) : list doc :=
  default [] (collections st !! name).

(** The identifier assigned to the [n]-th inserted document.  (A real
    ObjectId packs a timestamp, a random value and a counter; only its
    being twelve bytes matters here.) *)
Fixpoint be_bytes (k : nat) (n : N) : list byte :=
  match k with
  | O => []
  | S k' => (be_bytes k' (n / 256) ++ [default x00 (Byte.of_N (n mod 256))])%list
  end.

Definition assigned_oid (n : N) : oid := be_bytes 12 n.

Section Store.

(** The store's regular-expression search: pattern, options, subject.
    Patterns that the store rejects are outside the model. *)
Variable regex_search : string → string → string → bool.

(** Modelled from the spec: what [database.get_documents] does with a
    non-positive [limit], clamp it to 1 or reject it; the spec leaves the
    choice to the implementation. *)
Inductive limit_policy : Type := ClampToOne | RejectNonPositive.
Variable policy : limit_policy.

(** A condition against the field of a document: equality also holds
    of an array field with an equal element and, for [None], of an
    absent field; a regular expression is searched in a string or in the
    strings of an array. *)
Definition cond_holds (c : cond) (field : option value) : bool :=
  match c with
  | CEq x =>
      match field with
      | None => bool_decide (x = VNone)
      | Some (VList l) =>
          bool_decide (x = VList l)
          || match x with VStr s => bool_decide (s ∈ l) | _ => false end
      | Some y => bool_decide (x = y)
      end
  | CRegex p o =>
      match field with
      | Some (VStr s) => regex_search p o s
      | Some (VList l) => existsb (regex_search p o) l
      | _ => false
      end
  end.

(** A filter document selects the documents that meet every one of
    its conditions. *)
Definition matches (f : filter_doc) (d : doc) : bool :=
  bool_decide (map_Forall (λ k c, cond_holds c (d !! k) = true) f).

Definition log (c : store_call) (st : store) : store :=
  {| collections := collections st; next_id := next_id st;
     calls := (calls st ++ [c])%list |}.

(** [db[coll].find_one(f)] *)
Definition store_find_one (coll : string) (f : filter_doc) (st : store)
  : option doc * store :=
  (head (List.filter (matches f) (collection coll st)), log (FindOne coll f) st).

(** [list(db[coll].find(f).limit(n))] for a positive [n] *)
Definition store_find (coll : string) (f : filter_doc) (n : Z) (st : store)
  : list doc * store :=
  (take (Z.to_nat n) (List.filter (matches f) (collection coll st)),
   log (Find coll f n) st).

(** [db[coll].insert_one(d).inserted_id]: a document without [_id] is
    given one *)
Definition store_insert_one (coll : string) (d : doc) (st : store)
  : value * store :=
  let d' := match d !! "_id" with
            | Some _ => d
            | None => <["_id" := VOid (assigned_oid (next_id st))]> d
            end in
  (doc_get d' "_id",
   {| collections := <[coll := (collection coll st ++ [d'])%list]> (collections st);
      next_id := N.succ (next_id st);
      calls := (calls st ++ [InsertOne coll d])%list |}).

(** ** The monad of the handlers: exceptions over the [db] global *)

(** Modelled from the spec: [database.db] ([database.py] is not among the
    sources), the connection handle, or [None] when the store is
    unavailable.  It is the state of the monad. *)
Definition M (A : Type) : Type := option store → result A * option store.

#[local] Instance M_ret : MRet M := λ A a db, (Ok a, db).
#[local] Instance M_bind : MBind M := λ A B f c db,
  match c db with
  | (Ok a, db') => f a db'
  | (Raise e, db') => (Raise e, db')
  end.

Definition raise {A} (e : exn) : M A := λ db, (Raise e, db).
Definition lift {A} (r : result A) : M A := λ db, (r, db).
Definition db_is_None : M bool :=
  λ db, (Ok (match db with None => true | Some _ => false end), db).

(** A method call on [db]; on [None] Python raises [TypeError]. *)
Definition on_db {A} (op : store → A * store) : M A := λ db,
  match db with
  | Some st => let '(a, st') := op st in (Ok a, Some st')
  | None => (Raise TypeError, None)
  end.

(** ** The gateway *)

(** Modelled from the spec: [database.create_document] ([database.py] is
    not among the sources).  It inserts the payload as a new document and
    returns the assigned identifier; it fails with [StoreUnavailable] when
    no connection handle is held.  (A model is passed as its dump.  The
    store of this model accepts every insert: a write that the store
    rejects, the spec's [PersistenceError], is not modelled.) *)
Definition create_document (coll : string) (data : doc) : M value := λ db,
  match db with
  | None => (Raise StoreUnavailable, db)
  | Some st => let '(id, st') := store_insert_one coll data st in (Ok id, Some st')
  end.

(** Modelled from the spec: the positive limit that
    [database.get_documents] queries the store with. *)
Definition checked_limit (limit : Z) : result Z :=
  match policy with
  | ClampToOne => Ok (Z.max 1 limit)
  | RejectNonPositive => if limit <=? 0 then Raise InvalidArgument else Ok limit
  end.

(** Modelled from the spec: [database.get_documents] ([database.py] is
    not among the sources).  It returns up to [limit] documents that match
    the filter, in insertion order, after clamping a non-positive [limit]
    to 1 or rejecting it with [InvalidArgument]; it fails with
    [StoreUnavailable] when no connection handle is held. *)
Definition get_documents (coll : string) (f : filter_doc) (limit : Z)
  : M (list doc) := λ db,
  match db with
  | None => (Raise StoreUnavailable, db)
  | Some st =>
      match checked_limit limit with
      | Raise e => (Raise e, db)
      | Ok n => let '(docs, st') := store_find coll f n st in (Ok docs, Some st')
      end
  end.

(** ** The handlers of [main.py] *)

(** Truth value of a string argument and of a looked-up document *)
Definition truthy_str (x : option string) : option string :=
  match x with
  | Some s => if bool_decide (s = EmptyString) then None else Some s
  | None => None
  end.

Definition truthy_doc (x : option doc) : bool :=
  match x with
  | Some d => negb (bool_decide (d = ∅))
  | None => false
  end.

(** POST /threads *)
Definition create_thread (payload : ThreadCreate) : M (gmap string value) :=
  thread_id ← create_document "thread" (Thread_model_dump payload);
  mret {[ "id" := thread_id ]}.

(** The filter that [list_threads] builds *)
Definition list_threads_filter (q category : option string) : filter_doc :=
  let filter_dict : filter_doc := ∅ in
  let filter_dict :=
    match truthy_str q with
    | Some q => <["title" := CRegex q "i"]> filter_dict
    | None => filter_dict
    end in
  let filter_dict :=
    match truthy_str category with
    | Some category => <["category" := CEq (VStr category)]> filter_dict
    | None => filter_dict
    end in
  filter_dict.

(** GET /threads *)
Definition list_threads (limit : Z) (q category : option string)
  : M (list ThreadOut) :=
  docs ← get_documents "thread" (list_threads_filter q category) limit;
  lift (comprehension to_thread_out docs).

(** GET /threads/{thread_id} *)
Definition get_thread (thread_id : string) : M ThreadOut :=
  unavailable ← db_is_None;
  if unavailable : bool then raise (HTTPException 500 "Database not available") else
  o ← lift (ObjectId thread_id);
  found ← on_db (store_find_one "thread" {[ "_id" := CEq (VOid o) ]});
  if negb (truthy_doc found) then raise (HTTPException 404 "Thread not found") else
  lift (to_thread_out (default ∅ found)).

(** POST /threads/{thread_id}/posts *)
Definition create_post (thread_id : string) (payload : PostCreate)
  : M (gmap string value) :=
  unavailable ← db_is_None;
  if unavailable : bool then raise (HTTPException 500 "Database not available") else
  o ← lift (ObjectId thread_id);
  thread ← on_db (store_find_one "thread" {[ "_id" := CEq (VOid o) ]});
  if negb (truthy_doc thread) then raise (HTTPException 404 "Thread not found") else
  let post_data := Post_model_dump payload in
  let post_data := <["thread_id" := VStr thread_id]> post_data in
  post_id ← create_document "post" post_data;
  mret {[ "id" := post_id ]}.

(** The filter that [list_posts] builds *)
Definition list_posts_filter (thread_id : string) : filter_doc :=
  {[ "thread_id" := CEq (VStr thread_id) ]}.

(** GET /threads/{thread_id}/posts *)
Definition list_posts (thread_id : string) (limit : Z) : M (list PostOut) :=
  docs ← get_documents "post" (list_posts_filter thread_id) limit;
  lift (comprehension to_post_out docs).

End Store.

(** The status that the framework answers with: the handler's own
    [HTTPException] status, 500 for any other exception. *)
Definition http_status {A} (r : result A) : Z :=
  match r with
  | Ok _ => 200
  | Raise (HTTPException code _) => code
  | Raise _ => 500
  end.

(** ** Notions used in the statements *)

(** What the store holds; nothing when there is no connection. *)
Definition persisted (db : option store) : gmap string (list doc) :=
  match db with Some st => collections st | None => ∅ end.

Definition round_trips (db : option store) : list store_call :=
  match db with Some st => calls st | None => [] end.

(** The thread collection holds a document with this native identifier. *)
Definition thread_exists (o : oid) (st : store) : bool :=
  existsb (λ d : doc, bool_decide (d !! "_id" = Some (VOid o)))
          (collection "thread" st).

(** The thread that a lookup by identifier answers with: the first one. *)
Definition thread_by_id (o : oid) (st : store) : option doc :=
  head (List.filter (λ d : doc, bool_decide (d !! "_id" = Some (VOid o)))
                    (collection "thread" st)).

Definition by_id (o : oid) : filter_doc := {[ "_id" := CEq (VOid o) ]}.

Definition posts (db : option store) : list doc :=
  default [] (persisted db !! "post").

(** A value in the store's native identifier representation. *)
Definition is_native (v : value) : bool :=
  match v with VOid _ => true | _ => false end.

(** The external string form of a stored identifier. *)
Definition id_string (v : value) : option string :=
  match v with
  | VStr s => Some s
  | VOid o => Some (oid_str o)
  | _ => None
  end.

(** An optional field of a stored document: the value when there is one,
    the key absent or [None] otherwise. *)
Definition optional_field {A} (d : doc) (k : string) (inj : A → value)
    (x : option A) : bool :=
  match x with
  | Some a => bool_decide (d !! k = Some (inj a))
  | None => bool_decide (d !! k = None) || bool_decide (d !! k = Some VNone)
  end.

(** A stored document that passed the validation of the Thread schema,
    under the identifier [o]. *)
Definition stored_thread (d : doc) (o : oid) (t : Thread) : bool :=
  bool_decide (d !! "_id" = Some (VOid o))
  && bool_decide (d !! "title" = Some (VStr (Thread_title t)))
  && bool_decide (d !! "author" = Some (VStr (Thread_author t)))
  && bool_decide (d !! "content" = Some (VStr (Thread_content t)))
  && optional_field d "category" VStr (Thread_category t)
  && optional_field d "tags" VList (Thread_tags t).

(** A stored document that passed the validation of the Post schema,
    under the identifier [o], with [tid] stored as its [thread_id]. *)
Definition stored_post (d : doc) (o : oid) (tid : value) (author content : string)
  : bool :=
  bool_decide (d !! "_id" = Some (VOid o))
  && bool_decide (d !! "thread_id" = Some tid)
  && bool_decide (d !! "author" = Some (VStr author))
  && bool_decide (d !! "content" = Some (VStr content)).

Definition positive_limit (c : store_call) : Prop :=
  match c with
  | Find _ _ n => 1 ≤ n
  | _ => True
  end.

(** ** Sample data: the scenario of the spec *)

Definition no_regex : string → string → string → bool := λ _ _ _, false.

Definition empty_store : store :=
  {| collections := ∅; next_id := 0; calls := [] |}.

Definition sample_thread : Thread :=
  {| Thread_title := "Intro"; Thread_author := "alice"; Thread_content := "hi";
     Thread_category := Some "general"; Thread_tags := None |}.

(** The store after [create_thread sample_thread]. *)
Definition sample_store : store :=
  (store_insert_one "thread" (Thread_model_dump sample_thread) empty_store).2.

Definition sample_thread_id : string := "000000000000000000000000".

(** A payload whose body names another thread than the path does. *)
Definition sample_post : Post :=
  {| Post_thread_id := "ffffffffffffffffffffffff"; Post_author := "bob";
     Post_content := "welcome" |}.

(** A post document that stores its parent reference natively. *)
Definition native_post_doc : doc :=
  <["_id" := VOid (assigned_oid 1)]>
  (<["thread_id" := VOid (assigned_oid 0)]>
  (<["author" := VStr "bob"]> (<["content" := VStr "welcome"]> ∅))).

(** ** The diagnostic endpoint *)

(** The first [n] characters of a text, [s[:n]].  A byte of the form
    10xxxxxx continues the character before it. *)
Definition is_continuation (c : ascii) : bool :=
  let n := N_of_ascii c in ((128 <=? n) && (n <? 192))%N.

Fixpoint py_take (n : nat) (s : string) : string :=
  match s with
  | EmptyString => EmptyString
  | String c rest =>
      if is_continuation c then String c (py_take n rest)
      else match n with
           | O => EmptyString
           | S n' => String c (py_take n' rest)
           end
  end.

(** [len(s)], in characters *)
Fixpoint py_len (s : string) : nat :=
  match s with
  | EmptyString => O
  | String c rest => if is_continuation c then py_len rest else S (py_len rest)
  end.

(** What reading an attribute of an object comes to: there is none, it
    has a value, or the access raises (with this [str(e)]). *)
Inductive attribute : Type :=
  | AttrAbsent
  | AttrValue (v : value)
  | AttrRaises (msg : string).

Definition attr_raises (a : attribute) : bool :=
  match a with AttrRaises _ => true | _ => false end.

Section Diagnostics.

(** [os.getenv] *)
Variable getenv : string → option string.

(** [db.name], and [db.list_collection_names()]: the names, or the
    [str(e)] of the exception it raises. *)
Variable db_name : store → attribute.
Variable list_collection_names : store → string + list string.

Definition initial_response : gmap string value :=
  <["backend" := VStr "✅ Running"]>
  (<["database" := VStr "❌ Not Available"]>
  (<["database_url" := VNone]>
  (<["database_name" := VNone]>
  (<["connection_status" := VStr "Not Connected"]>
  (<["collections" := VList []]> ∅))))).

(** GET /test *)
Definition test_database (db : option store) : gmap string value :=
  let response := initial_response in
  let response :=
    match db with
    | Some st =>
        let response := <["database" := VStr "✅ Available"]> response in
        let response := <["database_url" := VStr "✅ Configured"]> response in
        match db_name st with
        | AttrRaises msg =>
            <["database" := VStr ("❌ Error: " ++ py_take 50 msg)]> response
        | name =>
            let response :=
              <["database_name" :=
                  match name with AttrValue v => v | _ => VStr "✅ Connected" end]>
                response in
            let response := <["connection_status" := VStr "Connected"]> response in
            match list_collection_names st with
            | inr collections =>
                let response :=
                  <["collections" := VList (take 10 collections)]> response in
                <["database" := VStr "✅ Connected & Working"]> response
            | inl msg =>
                <["database" := VStr ("⚠️  Connected but Error: " ++ py_take 50 msg)]>
                  response
            end
        end
    | None => <["database" := VStr "⚠️  Available but not initialized"]> response
    end in
  let response :=
    <["database_url" :=
        VStr (match truthy_str (getenv "DATABASE_URL") with
              | Some _ => "✅ Set"
              | None => "❌ Not Set"
              end)]>
      response in
  let response :=
    <["database_name" :=
        VStr (match truthy_str (getenv "DATABASE_NAME") with
              | Some _ => "✅ Set"
              | None => "❌ Not Set"
              end)]>
      response in
  response.

End Diagnostics.

(** GET / *)
Definition read_root : gmap string value :=
  {[ "message" := VStr "Forum API is running" ]}.

(** [s.lower()] on ASCII text *)
Definition ascii_lower (c : ascii) : ascii :=
  let n := N_of_ascii c in
  if ((65 <=? n) && (n <=? 90))%N then ascii_of_N (n + 32) else c.

Fixpoint lower (s : string) : string :=
  match s with
  | EmptyString => EmptyString
  | String c rest => String (ascii_lower c) (lower rest)
  end.

(** A store whose one thread has letters in its identifier. *)
Definition lettered_store : store :=
  (store_insert_one "thread" (Thread_model_dump sample_thread)
     {| collections := ∅; next_id := 171; calls := [] |}).2.

Definition sample_thread_out (id : string) : ThreadOut :=
  {| ThreadOut_id := id; ThreadOut_title := "Intro"; ThreadOut_author := "alice";
     ThreadOut_content := "hi"; ThreadOut_category := Some "general";
     ThreadOut_tags := None |}.

(** A connection whose listing of the collections fails. *)
Definition failing_listing : store → string + list string :=
  λ _, inl "ServerSelectionTimeoutError: localhost:27017: [Errno 111] Connection refused".

Definition named_forum : store → attribute := λ _, AttrValue (VStr "forum").

Definition no_env : string → option string := λ _, None.

(** ** Plain search texts

    On a pattern without metacharacters and ASCII text, the store's
    regular-expression search with option [i] is a search for the pattern
    as a substring, anywhere in the subject, letters compared without
    regard to case. *)

(** A letter, a digit or a space: no metacharacter of a regular
    expression *)
Definition plain_char (c : ascii) : bool :=
  let n := N_of_ascii c in
  (((48 <=? n) && (n <=? 57)) || ((65 <=? n) && (n <=? 90))
   || ((97 <=? n) && (n <=? 122)) || (n =? 32))%N.

Fixpoint plain_text (s : string) : bool :=
  match s with
  | EmptyString => true
  | String c rest => plain_char c && plain_text rest
  end.

Fixpoint ascii_text (s : string) : bool :=
  match s with
  | EmptyString => true
  | String c rest => (N_of_ascii c <? 128)%N && ascii_text rest
  end.

(** [p] is at the start of [s], up to the case of letters. *)
Fixpoint iprefix (p s : string) : bool :=
  match p, s with
  | EmptyString, _ => true
  | String a p', String b s' =>
      Ascii.eqb (ascii_lower a) (ascii_lower b) && iprefix p' s'
  | String _ _, EmptyString => false
  end.

(** [p] is somewhere in [s], up to the case of letters. *)
Fixpoint icontains (p s : string) : bool :=
  iprefix p s
  || match s with
     | EmptyString => false
     | String _ rest => icontains p rest
     end.

(** What is assumed of the store's search on plain patterns. *)
Definition literal_on_plain (regex_search : string → string → string → bool) : Prop :=
  ∀ p s : string,
    plain_text p = true → ascii_text s = true →
    regex_search p "i" s = icontains p s.

(** A search that reads every pattern as plain text. *)
Definition literal_search : string → string → string → bool :=
  λ p _ s, icontains p s.

Definition hello_world_doc : doc :=
  <["_id" := VOid (assigned_oid 5)]>
  (<["title" := VStr "Hello World"]>
  (<["author" := VStr "alice"]> (<["content" := VStr "hi"]> ∅))).

(** ** The forms of the stored identifiers *)

(** A native identifier of twelve bytes; an identifier held as a string. *)
Definition native_id (v : value) : bool :=
  match v with VOid o => (length o =? 12)%nat | _ => false end.

Definition string_id (v : value) : bool :=
  match v with VStr _ => true | _ => false end.

(** The documents of a collection have a native [_id], and those of the
    post collection a [thread_id] held as a string. *)
Definition docs_as_stored (c : string) (docs : list doc) : bool :=
  forallb (λ d : doc,
             native_id (doc_get d "_id")
             && (negb (String.eqb c "post") || string_id (doc_get d "thread_id")))
          docs.

Definition ids_as_stored (db : option store) : bool :=
  bool_decide (map_Forall (λ (c : string) (docs : list doc),
                             docs_as_stored c docs = true) (persisted db)).

(** * Properties

    ** The identifier codec *)

Module HexFacts.
Import Hex.

Lemma value_digit (n : N) : (n < 16)%N → value (digit n) = Some n.
Proof.
  intros Hn.
  destruct n as [|p]; [reflexivity|].
  do 4 (destruct p as [p|p|]; try reflexivity; try lia).
Qed.

Lemma byte_nibbles (b : byte) :
  Byte.of_N (16 * (Byte.to_N b / 16) + Byte.to_N b mod 16) = Some b.
Proof.
  rewrite <- N.div_mod by lia. apply Byte.of_to_N.
Qed.

Lemma to_N_bound (b : byte) : (Byte.to_N b < 256)%N.
Proof. destruct b; reflexivity. Qed.

Lemma digit_not_space (n : N) : (n < 16)%N → is_space (digit n) = false.
Proof.
  intros Hn.
  destruct n as [|p]; [reflexivity|].
  do 4 (destruct p as [p|p|]; try reflexivity; try lia).
Qed.

Lemma value_not_space (c : ascii) (v : N) : value c = Some v → is_space c = false.
Proof.
  destruct c as [[] [] [] [] [] [] [] []]; vm_compute;
    intros H; first [discriminate H | reflexivity].
Qed.

Lemma fromhex_hexlify (bs : list byte) : fromhex (hexlify bs) = Some bs.
Proof.
  induction bs as [|b bs IH]; [reflexivity|].
  cbn [hexlify fromhex].
  pose proof (to_N_bound b) as Hb.
  assert (Byte.to_N b / 16 < 16)%N as Hhi
    by (apply N.Div0.div_lt_upper_bound; lia).
  assert (Byte.to_N b mod 16 < 16)%N as Hlo
    by (apply N.mod_upper_bound; lia).
  rewrite (digit_not_space _ Hhi), !value_digit by done.
  by rewrite byte_nibbles, IH.
Qed.

Lemma length_hexlify (bs : list byte) :
  String.length (hexlify bs) = (2 * length bs)%nat.
Proof. induction bs as [|b bs IH]; cbn [hexlify String.length length]; lia. Qed.

(** [fromhex] succeeds exactly on an even number of hexadecimal digits. *)
(** A foreign character makes [fromhex] fail. *)
Lemma fromhex_foreign (s : string) :
  (has_foreign s = true → fromhex s = None)
  ∧ (∀ c, has_foreign (String c s) = true → fromhex (String c s) = None).
Proof.
  induction s as [|c' s [IH1 IH2]].
  - split; [discriminate|]. intros c H. cbn in H. cbn [fromhex].
    destruct (is_space c); [|reflexivity].
    by rewrite orb_true_r in H.
  - split; [apply IH2|].
    intros c H. cbn [fromhex].
    destruct (is_space c) eqn:Es.
    + apply IH2. cbn [has_foreign] in H |- *.
      by rewrite Es, orb_true_r in H.
    + cbn [has_foreign] in H. unfold is_digit in H.
      destruct (value c) as [hi|]; [|reflexivity].
      destruct (value c') as [lo|]; [|reflexivity].
      cbn in H. rewrite (IH1 H).
      destruct (Byte.of_N _); reflexivity.
Qed.

Lemma value_bound (c : ascii) (n : N) : value c = Some n → (n < 16)%N.
Proof.
  unfold value. intros H.
  repeat case_match; simplify_eq;
    repeat match goal with
           | E : (_ && _)%bool = true |- _ => apply andb_prop in E as [? ?]
           end;
    rewrite ?N.leb_le in *; lia.
Qed.

Lemma of_N_small (n : N) : (n < 256)%N → is_Some (Byte.of_N n).
Proof.
  intros Hn. destruct (Byte.of_N n) eqn:E; [eauto|].
  apply Byte.of_N_None_iff in E. lia.
Qed.

Lemma fromhex_digits (n : nat) (s : string) :
  String.length s = (2 * n)%nat → all_digits s = true →
  ∃ bs, fromhex s = Some bs ∧ length bs = n.
Proof.
  revert s. induction n as [|n IH]; intros s Hlen Hd.
  - destruct s; [|discriminate]. exists []. done.
  - destruct s as [|c1 [|c2 rest]]; cbn [String.length] in Hlen; try lia.
    cbn [all_digits] in Hd.
    apply andb_prop in Hd as [H1 Hd]. apply andb_prop in Hd as [H2 Hd].
    unfold is_digit in H1, H2.
    destruct (value c1) as [hi|] eqn:E1; [|discriminate].
    destruct (value c2) as [lo|] eqn:E2; [|discriminate].
    destruct (IH rest) as (bs & Hbs & Hl); [lia|done|].
    apply value_bound in E1 as B1. apply value_bound in E2 as B2.
    destruct (of_N_small (16 * hi + lo)) as [b Hb]; [lia|].
    exists (b :: bs). cbn [fromhex].
    rewrite (value_not_space c1 hi E1), E1, E2, Hb, Hbs. split; [done|].
    cbn. lia.
Qed.

Lemma all_digits_unspaced (s : string) : all_digits s = true → unspaced s = s.
Proof.
  induction s as [|c s IH]; [done|]. cbn [all_digits unspaced].
  intros [Hc Hs]%andb_prop. unfold is_digit in Hc.
  destruct (value c) as [v|] eqn:E; [|discriminate].
  by rewrite (value_not_space c v E), IH.
Qed.

End HexFacts.

(** What decoding raises, what it rejects and what it accepts. *)
Lemma ObjectId_raises (s : string) (e : exn) :
  ObjectId s = Raise e → e = InvalidId s.
Proof. unfold ObjectId. intros H. repeat case_match; by simplify_eq. Qed.

Lemma ObjectId_rejected (s : string) :
  id_rejected s = true → ObjectId s = Raise (InvalidId s).
Proof.
  unfold id_rejected, ObjectId. intros H.
  destruct (String.length s =? 24)%nat; [|reflexivity].
  cbn in H. apply HexFacts.fromhex_foreign in H. by rewrite H.
Qed.

Lemma ObjectId_well_formed (s : string) :
  well_formed_id s = true → ∃ o, ObjectId s = Ok o ∧ valid_oid o.
Proof.
  unfold well_formed_id, ObjectId. intros H.
  apply andb_prop in H as [Hl Hd]. rewrite Hl.
  apply Nat.eqb_eq in Hl.
  destruct (HexFacts.fromhex_digits 12 s) as (bs & -> & Hb); [done|done|].
  exists bs. done.
Qed.

(** C4 as stated fails: a string of 24 characters that is not 24
    hexadecimal digits is decoded when it is pairs of digits and white
    space. *)
Lemma white_space_id_is_decoded :
  ¬ (∀ s : string, well_formed_id s = false → ObjectId s = Raise (InvalidId s)).
Proof.
  intros H. specialize (H "00 00 00 00 00 00 00 00 " eq_refl).
  vm_compute in H. discriminate H.
Qed.

(** C4, amended.  Encoding a native identifier of twelve bytes to its
    string form and decoding that string gives the identifier back;
    decoding fails with [InvalidId] on every string that is not 24
    characters long or that holds a character other than a hexadecimal
    digit or ASCII white space. *)
Theorem identifier_round_trip (o : oid) (s : string) :
  valid_oid o → id_rejected s = true →
  ObjectId (oid_str o) = Ok o ∧ ObjectId s = Raise (InvalidId s).
Proof.
  unfold valid_oid, oid_str. intros Ho Hs. split.
  - unfold ObjectId.
    rewrite HexFacts.length_hexlify, Ho, HexFacts.fromhex_hexlify. reflexivity.
  - by apply ObjectId_rejected.
Qed.

Lemma identifier_round_trip_witness :
  ObjectId (oid_str (assigned_oid 2989)) = Ok (assigned_oid 2989)
  ∧ ObjectId "doesnotexist" = Raise (InvalidId "doesnotexist").
Proof.
  apply (identifier_round_trip (assigned_oid 2989) "doesnotexist"); reflexivity.
Defined.

(** ** The two handlers that look a thread up *)

Section HandlerFacts.
Variable regex_search : string → string → string → bool.

Lemma matches_by_id (o : oid) (d : doc) :
  matches regex_search (by_id o) d = bool_decide (d !! "_id" = Some (VOid o)).
Proof.
  unfold matches, by_id. apply bool_decide_ext.
  rewrite map_Forall_singleton. cbn [cond_holds].
  destruct (d !! "_id") as [[| | |]|]; cbn;
    rewrite ?bool_decide_eq_true, ?orb_false_r, ?bool_decide_eq_true;
    split; congruence.
Qed.

Lemma filter_by_id (o : oid) (l : list doc) :
  List.filter (matches regex_search (by_id o)) l
  = List.filter (λ d : doc, bool_decide (d !! "_id" = Some (VOid o))) l.
Proof. apply List.filter_ext. intros d. apply matches_by_id. Qed.

Lemma thread_by_id_Some (o : oid) (st : store) (t : doc) :
  thread_by_id o st = Some t →
  t ∈ collection "thread" st ∧ t !! "_id" = Some (VOid o).
Proof.
  unfold thread_by_id. intros H.
  apply head_Some_elem_of in H. apply list_elem_of_In, filter_In in H as [H1 H2].
  apply list_elem_of_In in H1. apply bool_decide_eq_true in H2. done.
Qed.

Lemma truthy_thread_by_id (o : oid) (st : store) :
  truthy_doc (thread_by_id o st) = thread_exists o st.
Proof.
  unfold thread_by_id, thread_exists.
  induction (collection "thread" st) as [|d l IH]; [reflexivity|].
  cbn [List.filter existsb].
  destruct (bool_decide (d !! "_id" = Some (VOid o))) eqn:E; [|exact IH].
  cbn. apply bool_decide_eq_true in E.
  rewrite bool_decide_eq_false_2; [reflexivity|].
  intros ->. rewrite lookup_empty in E. discriminate.
Qed.

Lemma thread_exists_by_id (o : oid) (st : store) :
  thread_exists o st = true → ∃ t, thread_by_id o st = Some t.
Proof.
  rewrite <- truthy_thread_by_id.
  destruct (thread_by_id o st) as [t|]; [eauto|discriminate].
Qed.

Lemma create_post_eval (s : string) (p : PostCreate) (db : option store) :
  create_post regex_search s p db =
  match db with
  | None => (Raise (HTTPException 500 "Database not available"), None)
  | Some st =>
      match ObjectId s with
      | Raise e => (Raise e, Some st)
      | Ok o =>
          let st1 := log (FindOne "thread" (by_id o)) st in
          if thread_exists o st then
            let '(id, st2) :=
              store_insert_one "post"
                (<["thread_id" := VStr s]> (Post_model_dump p)) st1 in
            (Ok {[ "id" := id ]}, Some st2)
          else (Raise (HTTPException 404 "Thread not found"), Some st1)
      end
  end.
Proof.
  unfold create_post, mbind, M_bind, db_is_None, raise, lift, on_db,
    store_find_one, create_document, mret, M_ret.
  destruct db as [st|]; [|reflexivity].
  destruct (ObjectId s) as [o|e]; [|reflexivity].
  fold (by_id o). rewrite filter_by_id. fold (thread_by_id o st).
  rewrite truthy_thread_by_id.
  destruct (thread_exists o st); reflexivity.
Qed.

Lemma get_thread_eval (s : string) (db : option store) :
  get_thread regex_search s db =
  match db with
  | None => (Raise (HTTPException 500 "Database not available"), None)
  | Some st =>
      match ObjectId s with
      | Raise e => (Raise e, Some st)
      | Ok o =>
          let st1 := log (FindOne "thread" (by_id o)) st in
          match thread_by_id o st with
          | Some t => (to_thread_out t, Some st1)
          | None => (Raise (HTTPException 404 "Thread not found"), Some st1)
          end
      end
  end.
Proof.
  unfold get_thread, mbind, M_bind, db_is_None, raise, lift, on_db,
    store_find_one.
  destruct db as [st|]; [|reflexivity].
  destruct (ObjectId s) as [o|e]; [|reflexivity].
  fold (by_id o). rewrite filter_by_id. fold (thread_by_id o st).
  pose proof (truthy_thread_by_id o st) as Ht.
  destruct (thread_by_id o st) as [t|] eqn:E.
  - apply thread_by_id_Some in E as [_ E].
    cbn. rewrite bool_decide_eq_false_2; [cbn; by destruct (to_thread_out t)|].
    intros ->. rewrite lookup_empty in E. discriminate.
  - reflexivity.
Qed.
End HandlerFacts.

(** ** The presentation mapper *)

Lemma optional_field_get {A} (d : doc) (k : string) (inj : A → value) (x : option A) :
  optional_field d k inj x = true → doc_get d k = opt_value inj x.
Proof.
  unfold optional_field, doc_get, opt_value. destruct x as [a|].
  - intros H%bool_decide_eq_true. by rewrite H.
  - intros [H%bool_decide_eq_true|H%bool_decide_eq_true]%orb_prop; by rewrite H.
Qed.

(** Reads the next field of the document and runs the validation on it. *)
Ltac read_fields :=
  repeat (first
    [ match goal with
      | H : doc_get ?d ?k = _ |- context [doc_get ?d ?k] => rewrite H
      | H : ?d !! ?k = _ |- context [doc_get ?d ?k] =>
          unfold doc_get at 1; rewrite H
      end
    | progress cbn [mbind result_bind validate_str validate_opt_str
                    validate_opt_list from_option id opt_value PyStr.str] ]).

Lemma to_thread_out_stored (d : doc) (o : oid) (t : Thread) :
  stored_thread d o t = true →
  to_thread_out d
  = Ok {| ThreadOut_id := oid_str o; ThreadOut_title := Thread_title t;
          ThreadOut_author := Thread_author t;
          ThreadOut_content := Thread_content t;
          ThreadOut_category := Thread_category t;
          ThreadOut_tags := Thread_tags t |}.
Proof.
  unfold stored_thread. intros Ht.
  repeat match goal with
         | H : (_ && _)%bool = true |- _ => apply andb_prop in H as [H ?]
         | H : bool_decide _ = true |- _ => apply bool_decide_eq_true in H
         | H : optional_field _ _ _ _ = true |- _ => apply optional_field_get in H
         end.
  unfold to_thread_out. read_fields.
  destruct (Thread_category t); read_fields;
    destruct (Thread_tags t); read_fields; reflexivity.
Qed.

Lemma to_post_out_stored (d : doc) (o : oid) (tid : value)
    (s author content : string) :
  stored_post d o tid author content = true → id_string tid = Some s →
  to_post_out d
  = Ok {| PostOut_id := oid_str o; PostOut_thread_id := s;
          PostOut_author := author; PostOut_content := content |}.
Proof.
  unfold stored_post. intros Hp Hs.
  repeat match goal with
         | H : (_ && _)%bool = true |- _ => apply andb_prop in H as [H ?]
         | H : bool_decide _ = true |- _ => apply bool_decide_eq_true in H
         end.
  unfold to_post_out. read_fields.
  destruct tid; cbn [id_string] in Hs; simplify_eq; read_fields; reflexivity.
Qed.

(** ** Post creation *)

Lemma length_be_bytes (k : nat) (n : N) : length (be_bytes k n) = k.
Proof.
  revert n. induction k as [|k IH]; intros n; [reflexivity|].
  cbn [be_bytes]. rewrite length_app, IH. cbn. lia.
Qed.

Lemma valid_assigned_oid (n : N) : valid_oid (assigned_oid n).
Proof. apply length_be_bytes. Qed.

Lemma collection_log (c : store_call) (name : string) (st : store) :
  collection name (log c st) = collection name st.
Proof. reflexivity. Qed.

Section PostFacts.
Variable regex_search : string → string → string → bool.

(** A successful [create_post], spelled out. *)
Lemma create_post_success (st : store) (s : string) (o : oid) (p : PostCreate) :
  ObjectId s = Ok o → thread_exists o st = true →
  let d : doc := <["_id" := VOid (assigned_oid (next_id st))]>
                   (<["thread_id" := VStr s]> (Post_model_dump p)) in
  create_post regex_search s p (Some st)
  = (Ok {[ "id" := VOid (assigned_oid (next_id st)) ]},
     Some {| collections := <["post" := (collection "post" st ++ [d])%list]> (collections st);
             next_id := N.succ (next_id st);
             calls := (calls st ++ [FindOne "thread" (by_id o);
                        InsertOne "post" (<["thread_id" := VStr s]> (Post_model_dump p))])%list |}).
Proof.
  intros Ho Ht d. rewrite create_post_eval, Ho, Ht.
  cbv zeta. unfold store_insert_one.
  replace (<["thread_id" := VStr s]> (Post_model_dump p) !! "_id") with (@None value)
    by (unfold Post_model_dump; by simplify_map_eq).
  cbn [log collections next_id calls]. rewrite collection_log.
  unfold doc_get. rewrite lookup_insert_eq. cbn [default].
  rewrite <- app_assoc. reflexivity.
Qed.
End PostFacts.

Lemma sample_thread_id_decodes : ObjectId sample_thread_id = Ok (assigned_oid 0).
Proof. reflexivity. Qed.

Lemma sample_thread_exists : thread_exists (assigned_oid 0) sample_store = true.
Proof. reflexivity. Qed.

(** C1.  When the path identifier decodes to an existing thread, the post
    document that is persisted has the path identifier as its [thread_id],
    whatever [thread_id] the body of the request carried. *)
Theorem create_post_stamps_path_id
    (regex_search : string → string → string → bool)
    (st : store) (s : string) (o : oid) (p : PostCreate) :
  ObjectId s = Ok o → thread_exists o st = true →
  ∃ (d : doc) (st' : store),
    create_post regex_search s p (Some st) = (Ok {[ "id" := doc_get d "_id" ]}, Some st')
    ∧ collection "post" st' = (collection "post" st ++ [d])%list
    ∧ d !! "thread_id" = Some (VStr s)
    ∧ d !! "author" = Some (VStr (Post_author p))
    ∧ d !! "content" = Some (VStr (Post_content p)).
Proof.
  intros Ho Ht.
  pose proof (create_post_success regex_search st s o p Ho Ht) as H.
  cbv zeta in H.
  exists (<["_id" := VOid (assigned_oid (next_id st))]>
            (<["thread_id" := VStr s]> (Post_model_dump p))).
  eexists. split_and!.
  - rewrite H. unfold doc_get. rewrite lookup_insert_eq. reflexivity.
  - unfold collection at 1. cbn [collections]. by rewrite lookup_insert_eq.
  - by simplify_map_eq.
  - unfold Post_model_dump. by simplify_map_eq.
  - unfold Post_model_dump. by simplify_map_eq.
Qed.

Lemma create_post_stamps_path_id_witness :
  ∃ (d : doc) (st' : store),
    create_post no_regex sample_thread_id sample_post (Some sample_store)
    = (Ok {[ "id" := doc_get d "_id" ]}, Some st')
    ∧ collection "post" st' = (collection "post" sample_store ++ [d])%list
    ∧ d !! "thread_id" = Some (VStr sample_thread_id)
    ∧ d !! "author" = Some (VStr (Post_author sample_post))
    ∧ d !! "content" = Some (VStr (Post_content sample_post)).
Proof.
  apply (create_post_stamps_path_id no_regex sample_store sample_thread_id
           (assigned_oid 0) sample_post); reflexivity.
Defined.

(** C7.  A post creation that fails, for whatever reason, leaves every
    collection as it was; and the collections change only when the path
    identifier decoded to a thread that exists. *)
Theorem create_post_no_partial_commit
    (regex_search : string → string → string → bool)
    (db db' : option store) (s : string) (p : PostCreate)
    (r : result (gmap string value)) :
  create_post regex_search s p db = (r, db') →
  (∀ e, r = Raise e → persisted db' = persisted db)
  ∧ (persisted db' ≠ persisted db →
     ∃ st o, db = Some st ∧ ObjectId s = Ok o ∧ thread_exists o st = true).
Proof.
  rewrite create_post_eval. intros H.
  destruct db as [st|]; [|by simplify_eq].
  destruct (ObjectId s) as [o|e0]; [|by simplify_eq].
  cbv zeta in H.
  destruct (thread_exists o st) eqn:Ht.
  - destruct (store_insert_one _ _ _) as [id st2]. simplify_eq.
    split; [discriminate|]. intros _. by exists st, o.
  - by simplify_eq.
Qed.

Lemma create_post_no_partial_commit_witness :
  (∀ e, @Raise (gmap string value) (HTTPException 404 "Thread not found") = Raise e →
        persisted (create_post no_regex "000000000000000000000007" sample_post
                     (Some sample_store)).2
        = persisted (Some sample_store))
  ∧ (persisted (create_post no_regex "000000000000000000000007" sample_post
                  (Some sample_store)).2
     ≠ persisted (Some sample_store) →
     ∃ st o, Some sample_store = Some st
             ∧ ObjectId "000000000000000000000007" = Ok o
             ∧ thread_exists o st = true).
Proof.
  apply (create_post_no_partial_commit no_regex (Some sample_store)
           (create_post no_regex "000000000000000000000007" sample_post
              (Some sample_store)).2
           "000000000000000000000007" sample_post
           (Raise (HTTPException 404 "Thread not found"))).
  reflexivity.
Defined.

Section FailureFacts.
Variable regex_search : string → string → string → bool.

Lemma create_post_unavailable (s : string) (p : PostCreate) :
  create_post regex_search s p None
  = (Raise (HTTPException 500 "Database not available"), None).
Proof. by rewrite create_post_eval. Qed.

Lemma create_post_malformed (st : store) (s : string) (p : PostCreate) :
  id_rejected s = true →
  create_post regex_search s p (Some st) = (Raise (InvalidId s), Some st).
Proof.
  intros Hs. by rewrite create_post_eval, (ObjectId_rejected s Hs).
Qed.

Lemma create_post_absent (st : store) (s : string) (o : oid) (p : PostCreate) :
  ObjectId s = Ok o → thread_exists o st = false →
  create_post regex_search s p (Some st)
  = (Raise (HTTPException 404 "Thread not found"),
     Some (log (FindOne "thread" (by_id o)) st)).
Proof. intros Ho Ht. by rewrite create_post_eval, Ho, Ht. Qed.

Lemma get_thread_unavailable (s : string) :
  get_thread regex_search s None
  = (Raise (HTTPException 500 "Database not available"), None).
Proof. by rewrite get_thread_eval. Qed.

Lemma get_thread_malformed (st : store) (s : string) :
  id_rejected s = true →
  get_thread regex_search s (Some st) = (Raise (InvalidId s), Some st).
Proof.
  intros Hs. by rewrite get_thread_eval, (ObjectId_rejected s Hs).
Qed.

Lemma get_thread_absent (st : store) (s : string) (o : oid) :
  ObjectId s = Ok o → thread_exists o st = false →
  (get_thread regex_search s (Some st)).1
  = Raise (HTTPException 404 "Thread not found").
Proof.
  intros Ho Ht. rewrite get_thread_eval, Ho. cbv zeta.
  rewrite <- truthy_thread_by_id in Ht.
  destruct (thread_by_id o st) as [t|] eqn:E; [|reflexivity].
  apply thread_by_id_Some in E as [_ E]. cbn in Ht.
  rewrite bool_decide_eq_false_2 in Ht; [discriminate|].
  intros ->. by rewrite lookup_empty in E.
Qed.

Lemma get_thread_found (st : store) (s : string) (o : oid) :
  ObjectId s = Ok o → thread_exists o st = true →
  ∃ t, t ∈ collection "thread" st ∧ t !! "_id" = Some (VOid o)
       ∧ (get_thread regex_search s (Some st)).1 = to_thread_out t.
Proof.
  intros Ho Ht. destruct (thread_exists_by_id o st Ht) as [t E].
  exists t. rewrite get_thread_eval, Ho. cbv zeta. rewrite E.
  apply thread_by_id_Some in E as [? ?]. done.
Qed.
End FailureFacts.

(** C2, at the path [/threads/doesnotexist/posts]: decoding raises
    [InvalidId] before any lookup, the exception is not an [HTTPException],
    and the answer is 500, not 404.  Nothing is persisted. *)
Theorem create_post_malformed_id_is_not_404 :
  create_post no_regex "doesnotexist" sample_post (Some sample_store)
  = (Raise (InvalidId "doesnotexist"), Some sample_store)
  ∧ http_status (create_post no_regex "doesnotexist" sample_post
                   (Some sample_store)).1 = 500.
Proof. split; reflexivity. Qed.

(** C6, at the path [/threads/doesnotexist]: decoding raises [InvalidId],
    which is not an [HTTPException], and the answer is 500, not 404. *)
Theorem get_thread_malformed_id_is_not_404 :
  get_thread no_regex "doesnotexist" (Some sample_store)
  = (Raise (InvalidId "doesnotexist"), Some sample_store)
  ∧ http_status (get_thread no_regex "doesnotexist" (Some sample_store)).1 = 500.
Proof. split; reflexivity. Qed.

(** The identifiers of a created post: a native [_id], the string of the
    path as [thread_id], and both as strings in its output form. *)
Lemma created_post_identifiers
    (regex_search : string → string → string → bool)
    (st : store) (s : string) (o : oid) (p : PostCreate) :
  ObjectId s = Ok o → thread_exists o st = true →
  ∃ (d : doc) (i : oid),
    posts (create_post regex_search s p (Some st)).2 = (posts (Some st) ++ [d])%list
    ∧ d !! "_id" = Some (VOid i) ∧ valid_oid i
    ∧ d !! "thread_id" = Some (VStr s)
    ∧ to_post_out d
      = Ok {| PostOut_id := oid_str i; PostOut_thread_id := s;
              PostOut_author := Post_author p; PostOut_content := Post_content p |}.
Proof.
  intros Ho Ht.
  pose proof (create_post_success regex_search st s o p Ho Ht) as H.
  cbv zeta in H. rewrite H. clear H.
  pose proof (valid_assigned_oid (next_id st)) as Hi.
  generalize dependent (assigned_oid (next_id st)). intros i Hi.
  set (d := <["_id" := VOid i]> (<["thread_id" := VStr s]> (Post_model_dump p))).
  assert (d !! "_id" = Some (VOid i)) as H1 by apply lookup_insert_eq.
  assert (d !! "thread_id" = Some (VStr s)) as H2
    by (subst d; by rewrite lookup_insert_ne, lookup_insert_eq).
  assert (d !! "author" = Some (VStr (Post_author p))) as H3
    by (subst d; unfold Post_model_dump;
        repeat (rewrite lookup_insert_ne by done); apply lookup_insert_eq).
  assert (d !! "content" = Some (VStr (Post_content p))) as H4
    by (subst d; unfold Post_model_dump;
        repeat (rewrite lookup_insert_ne by done); apply lookup_insert_eq).
  exists d, i. split_and!; [|exact H1|exact Hi|exact H2|].
  - unfold posts, persisted. cbn [snd collections].
    rewrite lookup_insert_eq. reflexivity.
  - apply (to_post_out_stored d i (VStr s)); [|reflexivity].
    unfold stored_post. by rewrite H1, H2, H3, H4, !bool_decide_eq_true_2.
Qed.

(** ** The query filters *)

Section FilterFacts.
Variable regex_search : string → string → string → bool.

Lemma matches_empty (d : doc) : matches regex_search ∅ d = true.
Proof. unfold matches. apply bool_decide_eq_true. apply map_Forall_empty. Qed.

Lemma matches_insert (k : string) (c : cond) (f : filter_doc) (d : doc) :
  f !! k = None →
  matches regex_search (<[k := c]> f) d
  = cond_holds regex_search c (d !! k) && matches regex_search f d.
Proof.
  intros Hk. unfold matches.
  rewrite (bool_decide_ext _ _ (map_Forall_insert _ f k c Hk)).
  rewrite bool_decide_and. f_equal.
  by destruct (cond_holds regex_search c (d !! k)).
Qed.

Lemma matches_singleton (k : string) (c : cond) (d : doc) :
  matches regex_search {[ k := c ]} d = cond_holds regex_search c (d !! k).
Proof.
  rewrite <- insert_empty, matches_insert by apply lookup_empty.
  rewrite matches_empty. apply andb_true_r.
Qed.
End FilterFacts.

Lemma truthy_str_spec (x : option string) :
  truthy_str x
  = match x with
    | Some s => if decide (s = EmptyString) then None else Some s
    | None => None
    end.
Proof.
  destruct x as [s|]; [|reflexivity]. cbn.
  destruct (decide (s = EmptyString)) as [->|Hs]; [reflexivity|].
  by rewrite bool_decide_eq_false_2.
Qed.

(** C3 as stated fails: a [q] that is present but empty contributes no
    clause. *)
Lemma empty_q_contributes_no_clause :
  ¬ (∀ (s : string) (category : option string),
       list_threads_filter (Some s) category !! "title" = Some (CRegex s "i")).
Proof. intros H. specialize (H EmptyString None). discriminate H. Qed.

(** The shape of the two filters and what matching them comes to. *)
Lemma filters_shape
    (regex_search : string → string → string → bool)
    (q category : option string) (thread_id : string) (d : doc) :
  let given (x : option string) : option string :=
    match x with
    | Some s => if decide (s = EmptyString) then None else Some s
    | None => None
    end in
  let title_clause := (λ s, CRegex s "i") <$> given q in
  let category_clause := (λ s, CEq (VStr s)) <$> given category in
  list_threads_filter None None = ∅
  ∧ matches regex_search ∅ d = true
  ∧ list_threads_filter q category !! "title" = title_clause
  ∧ list_threads_filter q category !! "category" = category_clause
  ∧ list_threads_filter q category
    = from_option (λ c, {[ "category" := c ]}) ∅ category_clause
      ∪ from_option (λ c, {[ "title" := c ]}) ∅ title_clause
  ∧ matches regex_search (list_threads_filter q category) d
    = from_option (λ c, cond_holds regex_search c (d !! "title")) true title_clause
      && from_option (λ c, cond_holds regex_search c (d !! "category")) true
           category_clause
  ∧ list_posts_filter thread_id = {[ "thread_id" := CEq (VStr thread_id) ]}
  ∧ matches regex_search (list_posts_filter thread_id) d
    = cond_holds regex_search (CEq (VStr thread_id)) (d !! "thread_id").
Proof.
  intros given title_clause category_clause.
  subst title_clause category_clause.
  replace (given q) with (truthy_str q) by apply truthy_str_spec.
  replace (given category) with (truthy_str category) by apply truthy_str_spec.
  clear given. unfold list_threads_filter, list_posts_filter.
  split_and!.
  - reflexivity.
  - apply matches_empty.
  - destruct (truthy_str q), (truthy_str category); by simplify_map_eq.
  - destruct (truthy_str q), (truthy_str category); by simplify_map_eq.
  - destruct (truthy_str q), (truthy_str category);
      cbn [fmap option_fmap option_map from_option].
    + by rewrite insert_union_singleton_l, insert_empty.
    + by rewrite (left_id_L ∅ (∪)), insert_empty.
    + by rewrite (right_id_L ∅ (∪)), insert_empty.
    + by rewrite (left_id_L ∅ (∪)).
  - destruct (truthy_str q) as [s|], (truthy_str category) as [c|];
      cbn [fmap option_fmap option_map from_option].
    + rewrite matches_insert by by simplify_map_eq.
      rewrite insert_empty, matches_singleton. apply andb_comm.
    + rewrite insert_empty, matches_singleton. by rewrite andb_true_r.
    + rewrite insert_empty, matches_singleton. reflexivity.
    + apply matches_empty.
  - reflexivity.
  - apply matches_singleton.
Qed.


Lemma lower_eq_length (m p : string) :
  lower m = lower p → String.length m = String.length p.
Proof.
  revert p. induction m as [|a m IH]; intros [|b p]; cbn; try done.
  intros [= _ H]. f_equal. by apply IH.
Qed.

Lemma iprefix_spec (p s : string) :
  iprefix p s = true ↔ ∃ m post : string, s = m ++ post ∧ lower m = lower p.
Proof.
  revert s. induction p as [|a p IH]; intros s.
  - split; [|done]. intros _. by exists EmptyString, s.
  - destruct s as [|b s]; cbn [iprefix].
    + split; [discriminate|]. intros (m & post & Hs & Hm).
      destruct m; [discriminate Hm|discriminate Hs].
    + rewrite andb_true_iff, Ascii.eqb_eq, IH. split.
      * intros (Hab & m & post & -> & Hm).
        exists (String b m), post. split; [done|]. cbn [lower]. congruence.
      * intros (m & post & Hs & Hm).
        destruct m as [|b' m]; [discriminate Hm|].
        injection Hs as <- ->. injection Hm as Hab Hm.
        split; [done|]. by exists m, post.
Qed.

Lemma icontains_spec (p s : string) :
  icontains p s = true
  ↔ ∃ pre m post : string, s = pre ++ m ++ post ∧ lower m = lower p.
Proof.
  induction s as [|b s IH].
  - cbn [icontains]. rewrite orb_false_r, iprefix_spec. split.
    + intros (m & post & Hs & Hm). by exists EmptyString, m, post.
    + intros (pre & m & post & Hs & Hm).
      destruct pre; [|discriminate Hs]. by exists m, post.
  - cbn [icontains]. rewrite orb_true_iff, iprefix_spec, IH. split.
    + intros [(m & post & Hs & Hm)|(pre & m & post & -> & Hm)].
      * by exists EmptyString, m, post.
      * by exists (String b pre), m, post.
    + intros (pre & m & post & Hs & Hm). destruct pre as [|b' pre].
      * left. by exists m, post.
      * right. injection Hs as <- ->. by exists pre, m, post.
Qed.

(** C3, amended.  With neither input given, the thread filter is the
    empty filter, which every document matches.  A [q] that is given and
    not empty contributes exactly one clause, on [title], with option [i]
    and no anchoring added; for a [q] of letters, digits and spaces the
    clause matches an ASCII title exactly when [q] occurs in it as a
    substring, anywhere, letters compared without regard to case.  A
    [category] that is given and not empty contributes exactly one
    clause, of equality on [category]: a string matches when it is that
    string, and an absent field or [None] does not.  An input that is
    given but empty contributes nothing; there is no other clause, and a
    document matches when it meets the clauses there are.  The post
    filter is the one equality clause on [thread_id]. *)
Theorem query_filters
    (regex_search : string → string → string → bool)
    (q category : option string) (thread_id : string) (d : doc) :
  literal_on_plain regex_search →
  let given (x : option string) : option string :=
    match x with
    | Some s => if decide (s = EmptyString) then None else Some s
    | None => None
    end in
  let title_clause := (λ s, CRegex s "i") <$> given q in
  let category_clause := (λ s, CEq (VStr s)) <$> given category in
  list_threads_filter None None = ∅
  ∧ matches regex_search ∅ d = true
  ∧ list_threads_filter q category !! "title" = title_clause
  ∧ list_threads_filter q category !! "category" = category_clause
  ∧ list_threads_filter q category
    = from_option (λ c, {[ "category" := c ]}) ∅ category_clause
      ∪ from_option (λ c, {[ "title" := c ]}) ∅ title_clause
  ∧ matches regex_search (list_threads_filter q category) d
    = from_option (λ c, cond_holds regex_search c (d !! "title")) true title_clause
      && from_option (λ c, cond_holds regex_search c (d !! "category")) true
           category_clause
  ∧ list_posts_filter thread_id = {[ "thread_id" := CEq (VStr thread_id) ]}
  ∧ matches regex_search (list_posts_filter thread_id) d
    = cond_holds regex_search (CEq (VStr thread_id)) (d !! "thread_id")
  ∧ (∀ s t : string,
       given q = Some s → plain_text s = true →
       d !! "title" = Some (VStr t) → ascii_text t = true →
       (cond_holds regex_search (CRegex s "i") (d !! "title") = true
        ↔ ∃ pre m post : string, t = pre ++ m ++ post ∧ lower m = lower s))
  ∧ (∀ c : string,
       given category = Some c →
       match d !! "category" with
       | Some (VList _) => True
       | field =>
           cond_holds regex_search (CEq (VStr c)) field = true
           ↔ field = Some (VStr c)
       end).
Proof.
  intros Hplain given title_clause category_clause.
  pose proof (filters_shape regex_search q category thread_id d) as Hshape.
  cbv zeta in Hshape.
  destruct Hshape as (H1 & H2 & H3 & H4 & H5 & H6 & H7 & H8).
  split_and!;
    [exact H1|exact H2|exact H3|exact H4|exact H5|exact H6|exact H7|exact H8| |].
  - intros s t _ Hs Ht Ha. rewrite Ht. cbn [cond_holds].
    rewrite (Hplain s t Hs Ha). apply icontains_spec.
  - intros c _. destruct (d !! "category") as [[| v | o | l]|]; cbn [cond_holds];
      first [exact I | rewrite bool_decide_eq_true; split; congruence].
Qed.

Lemma query_filters_witness :
  literal_on_plain literal_search
  ∧ (cond_holds literal_search (CRegex "hello" "i") (hello_world_doc !! "title") = true
     ↔ ∃ pre m post : string,
         "Hello World" = pre ++ m ++ post ∧ lower m = lower "hello").
Proof.
  assert (literal_on_plain literal_search) as H by (intros p s _ _; reflexivity).
  split; [exact H|].
  destruct (query_filters literal_search (Some "hello") None "x" hello_world_doc H)
    as (_ & _ & _ & _ & _ & _ & _ & _ & Hsub & _).
  apply (Hsub "hello" "Hello World"); reflexivity.
Defined.

(** C10.  An empty [q] or [category] is treated as an absent one: the
    filter is the same, and so is the outcome of the listing. *)
Theorem empty_string_is_absent
    (regex_search : string → string → string → bool) (policy : limit_policy)
    (limit : Z) (q category : option string) (db : option store) :
  list_threads_filter (Some EmptyString) category = list_threads_filter None category
  ∧ list_threads_filter q (Some EmptyString) = list_threads_filter q None
  ∧ list_threads_filter (Some EmptyString) (Some EmptyString) = ∅
  ∧ list_threads regex_search policy limit (Some EmptyString) category db
    = list_threads regex_search policy limit None category db
  ∧ list_threads regex_search policy limit q (Some EmptyString) db
    = list_threads regex_search policy limit q None db.
Proof. split_and!; reflexivity. Qed.

(** C8.  On a stored document that passed validation the mapper does not
    fail: the native [_id] becomes the string [id], a post's stored
    [thread_id] (string or native) becomes its string form, the other
    fields are copied, and an optional field that is absent or [None]
    becomes [None]. *)
Theorem presentation_mapper
    (d : doc) (o : oid) (t : Thread)
    (d' : doc) (o' : oid) (tid : value) (s author content : string) :
  stored_thread d o t = true →
  stored_post d' o' tid author content = true → id_string tid = Some s →
  to_thread_out d
  = Ok {| ThreadOut_id := oid_str o; ThreadOut_title := Thread_title t;
          ThreadOut_author := Thread_author t;
          ThreadOut_content := Thread_content t;
          ThreadOut_category := Thread_category t;
          ThreadOut_tags := Thread_tags t |}
  ∧ to_post_out d'
    = Ok {| PostOut_id := oid_str o'; PostOut_thread_id := s;
            PostOut_author := author; PostOut_content := content |}.
Proof.
  intros Ht Hp Hs. split.
  - by apply to_thread_out_stored.
  - by apply (to_post_out_stored d' o' tid).
Qed.

Lemma presentation_mapper_witness :
  to_thread_out (<["_id" := VOid (assigned_oid 0)]> (Thread_model_dump sample_thread))
  = Ok {| ThreadOut_id := oid_str (assigned_oid 0); ThreadOut_title := "Intro";
          ThreadOut_author := "alice"; ThreadOut_content := "hi";
          ThreadOut_category := Some "general"; ThreadOut_tags := None |}
  ∧ to_post_out native_post_doc
    = Ok {| PostOut_id := oid_str (assigned_oid 1);
            PostOut_thread_id := "000000000000000000000000";
            PostOut_author := "bob"; PostOut_content := "welcome" |}.
Proof.
  apply (presentation_mapper
           (<["_id" := VOid (assigned_oid 0)]> (Thread_model_dump sample_thread))
           (assigned_oid 0) sample_thread
           native_post_doc (assigned_oid 1) (VOid (assigned_oid 0))
           "000000000000000000000000" "bob" "welcome"); reflexivity.
Defined.

Lemma Thread_model_dump_fields (t : Thread) :
  Thread_model_dump t !! "_id" = None
  ∧ Thread_model_dump t !! "title" = Some (VStr (Thread_title t))
  ∧ Thread_model_dump t !! "author" = Some (VStr (Thread_author t))
  ∧ Thread_model_dump t !! "content" = Some (VStr (Thread_content t))
  ∧ Thread_model_dump t !! "category" = Some (opt_value VStr (Thread_category t))
  ∧ Thread_model_dump t !! "tags" = Some (opt_value VList (Thread_tags t)).
Proof.
  unfold Thread_model_dump.
  split_and!; repeat (rewrite lookup_insert_ne by done);
    first [apply lookup_insert_eq | apply lookup_empty].
Qed.

(** What [create_thread] stores is a validated Thread document. *)
Lemma create_thread_stores (st : store) (t : ThreadCreate) :
  ∃ d : doc,
    create_thread t (Some st)
    = (Ok {[ "id" := VOid (assigned_oid (next_id st)) ]},
       Some {| collections := <["thread" := (collection "thread" st ++ [d])%list]> (collections st);
               next_id := N.succ (next_id st);
               calls := (calls st ++ [InsertOne "thread" (Thread_model_dump t)])%list |})
    ∧ stored_thread d (assigned_oid (next_id st)) t = true.
Proof.
  destruct (Thread_model_dump_fields t) as (F0 & F1 & F2 & F3 & F4 & F5).
  set (i := assigned_oid (next_id st)).
  set (d := <["_id" := VOid i]> (Thread_model_dump t)).
  exists d. split.
  - unfold create_thread, mbind, M_bind, create_document, store_insert_one,
      mret, M_ret.
    rewrite F0. fold i. fold d. unfold doc_get. subst d.
    rewrite (lookup_insert_eq _ "_id"). reflexivity.
  - clearbody i.
    assert (∀ k, k ≠ "_id" → d !! k = Thread_model_dump t !! k) as Hk
      by (intros k Hne; subst d; by rewrite lookup_insert_ne).
    unfold stored_thread, optional_field.
    rewrite (bool_decide_eq_true_2 (d !! "_id" = Some (VOid i)))
      by apply lookup_insert_eq.
    rewrite !Hk, F1, F2, F3, F4, F5 by done.
    destruct (Thread_category t), (Thread_tags t); cbn [opt_value];
      repeat first [ rewrite bool_decide_eq_true_2 by done
                   | rewrite bool_decide_eq_false_2 by done ];
      reflexivity.
Qed.

Section LimitFacts.
Variable regex_search : string → string → string → bool.
Variable policy : limit_policy.

Lemma checked_limit_cases (limit : Z) :
  checked_limit policy limit = Ok (Z.max 1 limit)
  ∨ (checked_limit policy limit = Raise InvalidArgument ∧ limit ≤ 0).
Proof.
  unfold checked_limit. destruct policy; [by left|].
  destruct (Z.leb_spec limit 0); [by right|left]. f_equal. lia.
Qed.

Lemma get_documents_round_trips (coll : string) (f : filter_doc) (limit : Z)
    (db : option store) :
  let r := get_documents regex_search policy coll f limit db in
  (round_trips r.2 = (round_trips db ++ [Find coll f (Z.max 1 limit)])%list
   ∧ ∃ docs, r.1 = Ok docs)
  ∨ (r = (Raise StoreUnavailable, db) ∧ db = None)
  ∨ (r = (Raise InvalidArgument, db) ∧ limit ≤ 0).
Proof.
  unfold get_documents. destruct db as [st|]; [|by right; left].
  destruct (checked_limit_cases limit) as [->|[-> ?]].
  - left. cbn. eauto.
  - right; right. done.
Qed.
End LimitFacts.

(** C9.  Each listing makes at most one round trip to the store, a find
    whose limit is positive: a positive limit as given, a non-positive one
    clamped to 1, unless it was rejected with [InvalidArgument] before any
    round trip. *)
Theorem limit_reaching_store_is_positive
    (regex_search : string → string → string → bool) (policy : limit_policy)
    (limit : Z) (q category : option string) (thread_id : string)
    (db : option store) :
  let threads := list_threads regex_search policy limit q category db in
  let posts := list_posts regex_search policy thread_id limit db in
  (∃ new, round_trips threads.2 = (round_trips db ++ new)%list
          ∧ Forall positive_limit new
          ∧ (new = [Find "thread" (list_threads_filter q category) (Z.max 1 limit)]
             ∨ new = [] ∧ threads = (Raise StoreUnavailable, None)
             ∨ new = [] ∧ threads = (Raise InvalidArgument, db) ∧ limit ≤ 0))
  ∧ (∃ new, round_trips posts.2 = (round_trips db ++ new)%list
            ∧ Forall positive_limit new
            ∧ (new = [Find "post" (list_posts_filter thread_id) (Z.max 1 limit)]
               ∨ new = [] ∧ posts = (Raise StoreUnavailable, None)
               ∨ new = [] ∧ posts = (Raise InvalidArgument, db) ∧ limit ≤ 0)).
Proof.
  intros threads posts. subst threads posts.
  unfold list_threads, list_posts, mbind, M_bind, lift. split.
  - destruct (get_documents_round_trips regex_search policy "thread"
                (list_threads_filter q category) limit db)
      as [[Hr [docs Hd]]|[[Hr ->]|[Hr Hl]]].
    + destruct (get_documents _ _ _ _ _ _) as [r db']. cbn in Hr, Hd. subst r.
      eexists. split; [exact Hr|]. split; [|by left].
      constructor; [cbn; lia|constructor].
    + rewrite Hr. exists []. split; [by rewrite app_nil_r|]. split; [constructor|].
      right; left. done.
    + rewrite Hr. exists []. split; [by rewrite app_nil_r|]. split; [constructor|].
      right; right. done.
  - destruct (get_documents_round_trips regex_search policy "post"
                (list_posts_filter thread_id) limit db)
      as [[Hr [docs Hd]]|[[Hr ->]|[Hr Hl]]].
    + destruct (get_documents _ _ _ _ _ _) as [r db']. cbn in Hr, Hd. subst r.
      eexists. split; [exact Hr|]. split; [|by left].
      constructor; [cbn; lia|constructor].
    + rewrite Hr. exists []. split; [by rewrite app_nil_r|]. split; [constructor|].
      right; left. done.
    + rewrite Hr. exists []. split; [by rewrite app_nil_r|]. split; [constructor|].
      right; right. done.
Qed.

(** ** The scenario of the spec, run *)

Example scenario_list_posts :
  (list_posts no_regex ClampToOne sample_thread_id 100
     (create_post no_regex sample_thread_id sample_post (Some sample_store)).2).1
  = Ok [ {| PostOut_id := "000000000000000000000001";
            PostOut_thread_id := "000000000000000000000000";
            PostOut_author := "bob"; PostOut_content := "welcome" |} ].
Proof. reflexivity. Qed.

Example scenario_no_posts :
  (list_posts no_regex ClampToOne sample_thread_id 100 (Some sample_store)).1
  = Ok [].
Proof. reflexivity. Qed.

Example scenario_get_thread :
  (get_thread no_regex sample_thread_id (Some sample_store)).1
  = Ok {| ThreadOut_id := "000000000000000000000000"; ThreadOut_title := "Intro";
          ThreadOut_author := "alice"; ThreadOut_content := "hi";
          ThreadOut_category := Some "general"; ThreadOut_tags := None |}.
Proof. reflexivity. Qed.

(** * Further properties of the handlers

    ** Identifiers in answers and in paths *)

Lemma digit_is_lower (c : ascii) (v : N) :
  Hex.value c = Some v → Hex.digit v = ascii_lower c.
Proof.
  destruct c as [[] [] [] [] [] [] [] []]; vm_compute;
    intros H; first [discriminate H | injection H as <-; reflexivity].
Qed.

Lemma hexlify_fromhex (s : string) (bs : list byte) :
  (Hex.fromhex s = Some bs → Hex.hexlify bs = lower (Hex.unspaced s))
  ∧ (∀ c, Hex.fromhex (String c s) = Some bs →
          Hex.hexlify bs = lower (Hex.unspaced (String c s))).
Proof.
  revert bs. induction s as [|c' s IH]; intros bs.
  - split; [intros [= <-]; reflexivity|]. intros c H.
    cbn [Hex.fromhex Hex.unspaced] in H |- *.
    destruct (Hex.is_space c); [|discriminate]. by injection H as <-.
  - split; [apply IH|].
    intros c H. cbn [Hex.fromhex] in H.
    destruct (IH bs) as [_ IH2].
    destruct (Hex.is_space c) eqn:Es.
    + rewrite (IH2 c' H). cbn [Hex.unspaced]. by rewrite Es.
    + destruct (Hex.value c) as [hi|] eqn:E1; [|discriminate].
      destruct (Hex.value c') as [lo|] eqn:E2; [|discriminate].
      destruct (Byte.of_N _) as [b|] eqn:Eb; [|discriminate].
      destruct (Hex.fromhex s) as [bs'|] eqn:E; [|discriminate].
      injection H as <-.
      destruct (IH bs') as [IH1 _]. specialize (IH1 eq_refl).
      apply Byte.to_of_N in Eb.
      apply HexFacts.value_bound in E2 as B2.
      cbn [Hex.unspaced]. rewrite Es, (HexFacts.value_not_space c' lo E2).
      cbn [Hex.hexlify lower]. rewrite Eb, IH1.
      replace ((16 * hi + lo) / 16)%N with hi
        by (apply N.div_unique with lo; lia).
      replace ((16 * hi + lo) mod 16)%N with lo
        by (apply N.mod_unique with hi; lia).
      by rewrite (digit_is_lower c hi), (digit_is_lower c' lo).
Qed.

Lemma all_digits_hexlify (bs : list byte) : Hex.all_digits (Hex.hexlify bs) = true.
Proof.
  induction bs as [|b bs IH]; [reflexivity|].
  pose proof (HexFacts.to_N_bound b) as Hb.
  cbn [Hex.hexlify Hex.all_digits]. unfold Hex.is_digit.
  rewrite !HexFacts.value_digit, IH; [reflexivity| |].
  - apply N.mod_upper_bound. lia.
  - apply N.Div0.div_lt_upper_bound. lia.
Qed.

Lemma oid_str_well_formed (o : oid) :
  valid_oid o → well_formed_id (oid_str o) = true.
Proof.
  unfold valid_oid, well_formed_id, oid_str. intros Ho.
  by rewrite HexFacts.length_hexlify, Ho, all_digits_hexlify.
Qed.

Lemma length_lower (s : string) : String.length (lower s) = String.length s.
Proof. induction s as [|c s IH]; cbn; [done|by rewrite IH]. Qed.

Lemma length_unspaced (s : string) :
  (String.length (Hex.unspaced s) ≤ String.length s)%nat.
Proof.
  induction s as [|c s IH]; cbn [Hex.unspaced String.length]; [done|].
  destruct (Hex.is_space c); cbn [String.length]; lia.
Qed.

Lemma unspaced_same_length (s : string) :
  String.length (Hex.unspaced s) = String.length s → Hex.unspaced s = s.
Proof.
  induction s as [|c s IH]; cbn [Hex.unspaced String.length]; [done|].
  pose proof (length_unspaced s).
  destruct (Hex.is_space c); cbn [String.length]; [lia|].
  intros [= H']. by rewrite IH.
Qed.

Lemma ObjectId_str_lower (s : string) (o : oid) :
  ObjectId s = Ok o → oid_str o = lower (Hex.unspaced s).
Proof.
  unfold ObjectId, oid_str. intros H.
  destruct (String.length s =? 24)%nat; [|discriminate].
  destruct (Hex.fromhex s) as [bs|] eqn:E; [|discriminate].
  injection H as <-. by apply hexlify_fromhex.
Qed.

Lemma ObjectId_twelve_bytes (s : string) (o : oid) :
  ObjectId s = Ok o → valid_oid o → oid_str o = lower s.
Proof.
  intros Ho Hv. rewrite (ObjectId_str_lower s o Ho). f_equal.
  apply unspaced_same_length.
  rewrite <- (length_lower (Hex.unspaced s)), <- (ObjectId_str_lower s o Ho).
  unfold oid_str. rewrite HexFacts.length_hexlify.
  unfold valid_oid in Hv. rewrite Hv.
  unfold ObjectId in Ho.
  destruct (String.length s =? 24)%nat eqn:El; [|discriminate].
  by apply Nat.eqb_eq in El.
Qed.

(** X1.  [get_thread] only reads: whatever the path and the state of the
    connection, the collections are as before, and the store has seen at
    most one round trip, a lookup in the thread collection; none at all
    without a connection or when decoding the path raises. *)
Theorem get_thread_only_reads
    (regex_search : string → string → string → bool)
    (s : string) (db : option store) :
  persisted (get_thread regex_search s db).2 = persisted db
  ∧ (round_trips (get_thread regex_search s db).2 = round_trips db
     ∨ ∃ o, ObjectId s = Ok o
            ∧ round_trips (get_thread regex_search s db).2
              = (round_trips db ++ [FindOne "thread" (by_id o)])%list)
  ∧ (match db, ObjectId s with
     | Some _, Ok _ => True
     | _, _ => (get_thread regex_search s db).2 = db
     end).
Proof.
  rewrite get_thread_eval.
  destruct db as [st|]; [|by split_and!; [|left|]].
  destruct (ObjectId s) as [o|e]; [|by split_and!; [|left|]].
  cbv zeta. destruct (thread_by_id o st); (split_and!; [done| |done]); right; by exists o.
Qed.

(** X2.  An answer of [get_thread] is a stored thread: when it answers
    with a thread, the store is available, the path identifier decodes,
    the answer is the output form of a document of the thread collection
    with that native identifier, and the [id] answered is the path
    identifier in lower case, without the white space that decoding
    skipped: the path identifier in lower case itself when the identifier
    has twelve bytes. *)
Theorem get_thread_answer
    (regex_search : string → string → string → bool)
    (s : string) (db db' : option store) (out : ThreadOut) :
  get_thread regex_search s db = (Ok out, db') →
  ∃ (st : store) (o : oid) (t : doc),
    db = Some st ∧ ObjectId s = Ok o
    ∧ t ∈ collection "thread" st ∧ t !! "_id" = Some (VOid o)
    ∧ to_thread_out t = Ok out
    ∧ ThreadOut_id out = lower (Hex.unspaced s)
    ∧ (valid_oid o → ThreadOut_id out = lower s).
Proof.
  rewrite get_thread_eval. intros H.
  destruct db as [st|]; [|discriminate].
  destruct (ObjectId s) as [o|e] eqn:Ho; [|discriminate].
  cbv zeta in H.
  destruct (thread_by_id o st) as [t|] eqn:Et; [|discriminate].
  injection H as Hout _.
  apply thread_by_id_Some in Et as [Hin Hid].
  assert (ThreadOut_id out = oid_str o) as Hido.
  { unfold to_thread_out, doc_get in Hout. rewrite Hid in Hout.
    cbn [from_option id PyStr.str validate_str mbind result_bind] in Hout.
    repeat match type of Hout with
           | context [validate_str ?v] => destruct (validate_str v); cbn in Hout; [|discriminate]
           | context [validate_opt_str ?v] => destruct (validate_opt_str v); cbn in Hout; [|discriminate]
           | context [validate_opt_list ?v] => destruct (validate_opt_list v); cbn in Hout; [|discriminate]
           end.
    by injection Hout as <-. }
  exists st, o, t. split_and!; [done|done|done|done|done| |].
  - by rewrite Hido, (ObjectId_str_lower s o Ho).
  - intros Hv. by rewrite Hido, (ObjectId_twelve_bytes s o Ho Hv).
Qed.

Lemma get_thread_answer_witness :
  ∃ (st : store) (o : oid) (t : doc),
    Some lettered_store = Some st
    ∧ ObjectId "0000000000000000000000AB" = Ok o
    ∧ t ∈ collection "thread" st ∧ t !! "_id" = Some (VOid o)
    ∧ to_thread_out t = Ok (sample_thread_out "0000000000000000000000ab")
    ∧ ThreadOut_id (sample_thread_out "0000000000000000000000ab")
      = lower (Hex.unspaced "0000000000000000000000AB")
    ∧ (valid_oid o →
       ThreadOut_id (sample_thread_out "0000000000000000000000ab")
       = lower "0000000000000000000000AB").
Proof.
  apply (get_thread_answer no_regex "0000000000000000000000AB"
           (Some lettered_store)
           (get_thread no_regex "0000000000000000000000AB" (Some lettered_store)).2
           (sample_thread_out "0000000000000000000000ab")).
  reflexivity.
Defined.

Lemma ObjectId_oid_str (o : oid) : valid_oid o → ObjectId (oid_str o) = Ok o.
Proof.
  unfold valid_oid, ObjectId, oid_str. intros Ho.
  by rewrite HexFacts.length_hexlify, Ho, HexFacts.fromhex_hexlify.
Qed.

Lemma thread_exists_elem (o : oid) (st : store) (t : doc) :
  t ∈ collection "thread" st → t !! "_id" = Some (VOid o) →
  thread_exists o st = true.
Proof.
  intros Hin Hid. unfold thread_exists. apply existsb_exists.
  exists t. split; [by apply list_elem_of_In|by apply bool_decide_eq_true].
Qed.

(** The mappers raise nothing but [ValidationError]. *)
Lemma validate_str_raises (v : value) (e : exn) :
  validate_str v = Raise e → e = ValidationError.
Proof. destruct v; cbn; congruence. Qed.

Lemma validate_opt_str_raises (v : value) (e : exn) :
  validate_opt_str v = Raise e → e = ValidationError.
Proof. destruct v; cbn; congruence. Qed.

Lemma validate_opt_list_raises (v : value) (e : exn) :
  validate_opt_list v = Raise e → e = ValidationError.
Proof. destruct v; cbn; congruence. Qed.

Lemma validate_str_Ok (v : value) (s : string) :
  validate_str v = Ok s ↔ v = VStr s.
Proof. destruct v; cbn; split; congruence. Qed.

Lemma validate_opt_str_Ok (v : value) (x : option string) :
  validate_opt_str v = Ok x ↔ v = opt_value VStr x.
Proof. destruct v, x; cbn; split; congruence. Qed.

Lemma validate_opt_list_Ok (v : value) (x : option (list string)) :
  validate_opt_list v = Ok x ↔ v = opt_value VList x.
Proof. destruct v, x; cbn; split; congruence. Qed.

Lemma result_bind_Ok {A B} (r : result A) (f : A → result B) (b : B) :
  r ≫= f = Ok b ↔ ∃ a, r = Ok a ∧ f a = Ok b.
Proof.
  destruct r as [a|e]; cbn; split.
  - intros H. by exists a.
  - by intros (a' & [= <-] & H).
  - discriminate.
  - by intros (a' & [=] & _).
Qed.

Lemma result_bind_Raise {A B} (r : result A) (f : A → result B) (e : exn) :
  r ≫= f = Raise e ↔ r = Raise e ∨ ∃ a, r = Ok a ∧ f a = Raise e.
Proof.
  destruct r as [a|e']; cbn; split.
  - intros H. right. by exists a.
  - intros [[=]|(a' & [= <-] & H)]. done.
  - intros [= <-]. by left.
  - intros [[= <-]|(a' & [=] & _)]. done.
Qed.

(** X6.  [to_thread_out] succeeds exactly on the documents whose [title],
    [author] and [content] are strings and whose [category] and [tags] are
    a string and a list or [None] or absent; the output then carries
    [str(_id)] and these fields.  On any other document it raises
    [ValidationError], and nothing else. *)
Theorem to_thread_out_spec (d : doc) :
  (∀ out : ThreadOut,
     to_thread_out d = Ok out ↔
     ThreadOut_id out = PyStr.str (doc_get d "_id")
     ∧ doc_get d "title" = VStr (ThreadOut_title out)
     ∧ doc_get d "author" = VStr (ThreadOut_author out)
     ∧ doc_get d "content" = VStr (ThreadOut_content out)
     ∧ doc_get d "category" = opt_value VStr (ThreadOut_category out)
     ∧ doc_get d "tags" = opt_value VList (ThreadOut_tags out))
  ∧ (∀ e : exn, to_thread_out d = Raise e → e = ValidationError).
Proof.
  unfold to_thread_out. split.
  - intros out. split.
    + intros H.
      repeat (apply result_bind_Ok in H as (? & ?%validate_str_Ok & H)
              || apply result_bind_Ok in H as (? & ?%validate_opt_str_Ok & H)
              || apply result_bind_Ok in H as (? & ?%validate_opt_list_Ok & H)).
      simplify_eq. done.
    + destruct out as [i t a c ca ta]. cbn [ThreadOut_id ThreadOut_title
        ThreadOut_author ThreadOut_content ThreadOut_category ThreadOut_tags].
      intros (-> & -> & -> & -> & -> & ->). by destruct ca, ta.
  - intros e H.
    repeat (apply result_bind_Raise in H as [H|(? & _ & H)];
            [by first [apply validate_str_raises in H
                      |apply validate_opt_str_raises in H
                      |apply validate_opt_list_raises in H]|]).
    discriminate.
Qed.

(** X7.  [to_post_out] succeeds exactly on the documents whose [author]
    and [content] are strings; [id] and [thread_id] are [str] of what is
    stored, whatever it is, so that a missing [thread_id] is answered as
    the text None.  On any other document it raises [ValidationError], and
    nothing else. *)
Theorem to_post_out_spec (d : doc) :
  (∀ out : PostOut,
     to_post_out d = Ok out ↔
     PostOut_id out = PyStr.str (doc_get d "_id")
     ∧ PostOut_thread_id out = PyStr.str (doc_get d "thread_id")
     ∧ doc_get d "author" = VStr (PostOut_author out)
     ∧ doc_get d "content" = VStr (PostOut_content out))
  ∧ (∀ e : exn, to_post_out d = Raise e → e = ValidationError)
  ∧ (d !! "thread_id" = None →
     ∀ out : PostOut, to_post_out d = Ok out → PostOut_thread_id out = "None").
Proof.
  unfold to_post_out. split_and!.
  - intros out. split.
    + intros H.
      repeat (apply result_bind_Ok in H as (? & ?%validate_str_Ok & H)).
      simplify_eq. done.
    + destruct out as [i t a c]. cbn [PostOut_id PostOut_thread_id
        PostOut_author PostOut_content].
      by intros (-> & -> & -> & ->).
  - intros e H.
    repeat (apply result_bind_Raise in H as [H|(? & _ & H)];
            [by apply validate_str_raises in H|]).
    discriminate.
  - intros Hd out H.
    repeat (apply result_bind_Ok in H as (? & ?%validate_str_Ok & H)).
    simplify_eq. cbn. unfold doc_get. by rewrite Hd.
Qed.

Lemma to_thread_out_status (d : doc) :
  http_status (to_thread_out d) = 200 ∨ http_status (to_thread_out d) = 500.
Proof.
  destruct (to_thread_out d) as [out|e] eqn:E; [by left|right].
  unfold to_thread_out in E.
  repeat (apply result_bind_Raise in E as [E|(? & _ & E)];
          [first [apply validate_str_raises in E
                 |apply validate_opt_str_raises in E
                 |apply validate_opt_list_raises in E]; by subst|]).
  discriminate.
Qed.

(** X3.  The [id] that [to_thread_out] answers for a stored thread can be
    used as a path: [get_thread] on it decodes, finds a thread with that
    native identifier and answers with its output form. *)
Theorem answered_id_finds_thread
    (regex_search : string → string → string → bool)
    (st : store) (t : doc) (o : oid) (out : ThreadOut) :
  t ∈ collection "thread" st → t !! "_id" = Some (VOid o) → valid_oid o →
  to_thread_out t = Ok out →
  ∃ t' : doc,
    t' ∈ collection "thread" st ∧ t' !! "_id" = Some (VOid o)
    ∧ (get_thread regex_search (ThreadOut_id out) (Some st)).1 = to_thread_out t'.
Proof.
  intros Hin Hid Ho Hout.
  assert (ThreadOut_id out = oid_str o) as ->.
  { unfold to_thread_out, doc_get in Hout. rewrite Hid in Hout.
    apply result_bind_Ok in Hout as (i & [= <-] & Hout).
    repeat (apply result_bind_Ok in Hout as (? & _ & Hout)).
    by injection Hout as <-. }
  apply (get_thread_found regex_search st (oid_str o) o).
  - by apply ObjectId_oid_str.
  - by apply (thread_exists_elem o st t).
Qed.

Lemma answered_id_finds_thread_witness :
  ∃ t' : doc,
    t' ∈ collection "thread" lettered_store
    ∧ t' !! "_id" = Some (VOid (assigned_oid 171))
    ∧ (get_thread no_regex
         (ThreadOut_id (sample_thread_out "0000000000000000000000ab"))
         (Some lettered_store)).1
      = to_thread_out t'.
Proof.
  apply (answered_id_finds_thread no_regex lettered_store
           (<["_id" := VOid (assigned_oid 171)]> (Thread_model_dump sample_thread))
           (assigned_oid 171) (sample_thread_out "0000000000000000000000ab")).
  - vm_compute. apply list_elem_of_here.
  - reflexivity.
  - reflexivity.
  - reflexivity.
Defined.

(** X4.  [get_thread] answers 404 exactly when the store is available,
    the path identifier decodes and no thread has the identifier it decodes
    to; every other answer is 200 or 500. *)
Theorem get_thread_404_iff
    (regex_search : string → string → string → bool)
    (s : string) (db : option store) :
  (http_status (get_thread regex_search s db).1 = 404
   ↔ ∃ (st : store) (o : oid),
       db = Some st ∧ ObjectId s = Ok o ∧ thread_exists o st = false)
  ∧ (http_status (get_thread regex_search s db).1 = 200
     ∨ http_status (get_thread regex_search s db).1 = 404
     ∨ http_status (get_thread regex_search s db).1 = 500).
Proof.
  split; [|rewrite get_thread_eval;
           destruct db as [st|]; [|by right; right];
           destruct (ObjectId s) as [o|e] eqn:Ho;
             [cbv zeta; destruct (thread_by_id o st) as [t|];
                [destruct (to_thread_out_status t); tauto|by right; left]
             |unfold ObjectId in Ho; repeat case_match; simplify_eq; by right; right]].
  rewrite get_thread_eval.
  destruct db as [st|]; [|split; [discriminate|by intros (? & ? & ? & _)]].
  destruct (ObjectId s) as [o|e] eqn:Ho.
  - cbv zeta. pose proof (truthy_thread_by_id o st) as Ht.
    destruct (thread_by_id o st) as [t|] eqn:Et; cbn [fst].
    + apply thread_by_id_Some in Et as [_ Hid]. split.
      * intros H. destruct (to_thread_out_status t); lia.
      * intros (st' & o' & [= <-] & [= <-] & H).
        rewrite <- Ht in H. cbn in H.
        rewrite bool_decide_eq_false_2 in H; [discriminate|].
        intros ->. by rewrite lookup_empty in Hid.
    + split; [|done]. intros _. by exists st, o.
  - split; [|by intros (? & ? & _ & [=] & _)].
    destruct e; cbn; try discriminate.
    unfold ObjectId in Ho. repeat case_match; discriminate.
Qed.

(** X5.  [create_post] answers 404 exactly when the store is available,
    the path identifier decodes and no thread has the identifier it decodes
    to; it answers 200 only when a thread has it; every other answer is
    500. *)
Theorem create_post_status
    (regex_search : string → string → string → bool)
    (s : string) (p : PostCreate) (db : option store) :
  (http_status (create_post regex_search s p db).1 = 404
   ↔ ∃ (st : store) (o : oid),
       db = Some st ∧ ObjectId s = Ok o ∧ thread_exists o st = false)
  ∧ (http_status (create_post regex_search s p db).1 = 200 →
     ∃ (st : store) (o : oid),
       db = Some st ∧ ObjectId s = Ok o ∧ thread_exists o st = true)
  ∧ (http_status (create_post regex_search s p db).1 = 200
     ∨ http_status (create_post regex_search s p db).1 = 404
     ∨ http_status (create_post regex_search s p db).1 = 500).
Proof.
  rewrite create_post_eval.
  destruct db as [st|];
    [|split_and!; [split; [discriminate|by intros (? & ? & ? & _)]
                  |discriminate
                  |by right; right]].
  destruct (ObjectId s) as [o|e] eqn:Ho.
  - cbv zeta. destruct (thread_exists o st) eqn:Et.
    + destruct (store_insert_one _ _ _) as [i st2]. split_and!.
      * split; [discriminate|].
        intros (st' & o' & [= <-] & [= <-] & H). congruence.
      * intros _. by exists st, o.
      * by left.
    + split_and!.
      * split; [|done]. intros _. by exists st, o.
      * discriminate.
      * by right; left.
  - rewrite (ObjectId_raises s e Ho). split_and!.
    + split; [discriminate|by intros (? & ? & _ & [=] & _)].
    + discriminate.
    + by right; right.
Qed.

(** A path of 24 characters with white space between the pairs of digits
    is decoded, to fewer than twelve bytes, and looked up: both handlers
    answer 404, after one round trip. *)
Example white_space_path_is_looked_up :
  http_status (get_thread no_regex "00 00 00 00 00 00 00 00 " (Some sample_store)).1
  = 404
  ∧ http_status
      (create_post no_regex "00 00 00 00 00 00 00 00 " sample_post
         (Some sample_store)).1 = 404
  ∧ round_trips (get_thread no_regex "00 00 00 00 00 00 00 00 " (Some sample_store)).2
    = (round_trips (Some sample_store)
       ++ [FindOne "thread" (by_id (be_bytes 8 0))])%list.
Proof. split_and!; reflexivity. Qed.

(** X19.  [get_thread] reads the path identifier without regard to the
    case of its hexadecimal digits: on a well-formed identifier it does
    the same as on its lower-case spelling. *)
Theorem get_thread_ignores_case
    (regex_search : string → string → string → bool)
    (s : string) (db : option store) :
  well_formed_id s = true →
  get_thread regex_search (lower s) db = get_thread regex_search s db.
Proof.
  intros Hs. destruct (ObjectId_well_formed s Hs) as (o & Ho & Hv).
  rewrite !get_thread_eval, Ho.
  replace (lower s) with (oid_str o).
  - by rewrite (ObjectId_oid_str o Hv).
  - rewrite (ObjectId_str_lower s o Ho). f_equal.
    apply HexFacts.all_digits_unspaced.
    unfold well_formed_id in Hs. by apply andb_prop in Hs as [_ Hs].
Qed.

Lemma get_thread_ignores_case_witness :
  get_thread no_regex (lower "0000000000000000000000AB") (Some lettered_store)
  = get_thread no_regex "0000000000000000000000AB" (Some lettered_store).
Proof.
  apply (get_thread_ignores_case no_regex "0000000000000000000000AB"
           (Some lettered_store)).
  reflexivity.
Defined.

(** ** Listings *)

Lemma comprehension_Ok {A B} (f : A → result B) (xs : list A) (ys : list B) :
  comprehension f xs = Ok ys ↔ Forall2 (λ x y, f x = Ok y) xs ys.
Proof.
  revert ys. induction xs as [|x xs IH]; intros ys; cbn [comprehension].
  - split; [intros [= <-]; constructor|by intros ->%Forall2_nil_inv_l].
  - rewrite result_bind_Ok. split.
    + intros (y & Hy & H). apply result_bind_Ok in H as (ys' & H & [= <-]).
      constructor; [done|by apply IH].
    + intros (y & ys' & Hy & H & ->)%Forall2_cons_inv_l.
      exists y. split; [done|]. apply IH in H. by rewrite H.
Qed.

Lemma comprehension_Raise {A B} (f : A → result B) (xs : list A) (e : exn) :
  comprehension f xs = Raise e → Exists (λ x, f x = Raise e) xs.
Proof.
  induction xs as [|x xs IH]; cbn [comprehension]; [discriminate|].
  intros [H|(y & Hy & H)]%result_bind_Raise; [by constructor|].
  apply result_bind_Raise in H as [H|(ys & _ & [=])].
  apply Exists_cons_tl. by apply IH.
Qed.

Lemma to_post_out_raises (d : doc) (e : exn) :
  to_post_out d = Raise e → e = ValidationError.
Proof.
  unfold to_post_out. intros H.
  repeat (apply result_bind_Raise in H as [H|(? & _ & H)];
          [by apply validate_str_raises in H|]).
  discriminate.
Qed.

Lemma to_thread_out_raises (d : doc) (e : exn) :
  to_thread_out d = Raise e → e = ValidationError.
Proof.
  unfold to_thread_out. intros H.
  repeat (apply result_bind_Raise in H as [H|(? & _ & H)];
          [by first [apply validate_str_raises in H
                    |apply validate_opt_str_raises in H
                    |apply validate_opt_list_raises in H]|]).
  discriminate.
Qed.

(** X8.  [list_threads] answers with one output per document that the
    gateway returned, in the same order, and only when every one of them
    passes validation: one document that fails makes the whole listing
    fail with [ValidationError].  Any other failure is the gateway's, and
    the handler passes it on as it is. *)
Theorem list_threads_outcome
    (regex_search : string → string → string → bool) (policy : limit_policy)
    (limit : Z) (q category : option string) (db db' : option store)
    (r : result (list ThreadOut)) :
  list_threads regex_search policy limit q category db = (r, db') →
  match r with
  | Ok outs =>
      ∃ docs : list doc,
        get_documents regex_search policy "thread"
          (list_threads_filter q category) limit db = (Ok docs, db')
        ∧ Forall2 (λ d out, to_thread_out d = Ok out) docs outs
  | Raise e =>
      get_documents regex_search policy "thread"
        (list_threads_filter q category) limit db = (Raise e, db')
      ∨ ∃ docs : list doc,
          get_documents regex_search policy "thread"
            (list_threads_filter q category) limit db = (Ok docs, db')
          ∧ e = ValidationError
          ∧ Exists (λ d, to_thread_out d = Raise ValidationError) docs
  end.
Proof.
  unfold list_threads, mbind, M_bind, lift.
  destruct (get_documents _ _ _ _ _ _) as [[docs|e] db1]; intros [= <- <-].
  - destruct (comprehension to_thread_out docs) as [outs|e] eqn:E.
    + exists docs. split; [done|]. by apply comprehension_Ok.
    + right. exists docs. apply comprehension_Raise in E as E'.
      assert (e = ValidationError) as ->.
      { apply Exists_exists in E' as (d & _ & Hd). by apply to_thread_out_raises in Hd. }
      done.
  - by left.
Qed.

Lemma list_threads_outcome_witness :
  ∃ docs : list doc,
    get_documents no_regex ClampToOne "thread"
      (list_threads_filter None (Some "general")) 10 (Some sample_store)
    = (Ok docs,
       (list_threads no_regex ClampToOne 10 None (Some "general")
          (Some sample_store)).2)
    ∧ Forall2 (λ d out, to_thread_out d = Ok out) docs
        [sample_thread_out "000000000000000000000000"].
Proof.
  apply (list_threads_outcome no_regex ClampToOne 10 None (Some "general")
           (Some sample_store)
           (list_threads no_regex ClampToOne 10 None (Some "general")
              (Some sample_store)).2
           (Ok [sample_thread_out "000000000000000000000000"])).
  reflexivity.
Defined.

(** X9.  [list_posts] neither decodes the path identifier nor looks the
    thread up: it answers with one output per document that the gateway
    returned, in the same order, fails with [ValidationError] when one of
    them fails validation, and otherwise fails only as the gateway does. *)
Theorem list_posts_outcome
    (regex_search : string → string → string → bool) (policy : limit_policy)
    (s : string) (limit : Z) (db db' : option store)
    (r : result (list PostOut)) :
  list_posts regex_search policy s limit db = (r, db') →
  match r with
  | Ok outs =>
      ∃ docs : list doc,
        get_documents regex_search policy "post" (list_posts_filter s) limit db
        = (Ok docs, db')
        ∧ Forall2 (λ d out, to_post_out d = Ok out) docs outs
  | Raise e =>
      get_documents regex_search policy "post" (list_posts_filter s) limit db
      = (Raise e, db')
      ∨ ∃ docs : list doc,
          get_documents regex_search policy "post" (list_posts_filter s) limit db
          = (Ok docs, db')
          ∧ e = ValidationError
          ∧ Exists (λ d, to_post_out d = Raise ValidationError) docs
  end.
Proof.
  unfold list_posts, mbind, M_bind, lift.
  destruct (get_documents _ _ _ _ _ _) as [[docs|e] db1]; intros [= <- <-].
  - destruct (comprehension to_post_out docs) as [outs|e] eqn:E.
    + exists docs. split; [done|]. by apply comprehension_Ok.
    + right. exists docs. apply comprehension_Raise in E as E'.
      assert (e = ValidationError) as ->.
      { apply Exists_exists in E' as (d & _ & Hd). by apply to_post_out_raises in Hd. }
      done.
  - by left.
Qed.

Lemma list_posts_outcome_witness :
  ∃ docs : list doc,
    get_documents no_regex ClampToOne "post" (list_posts_filter "doesnotexist")
      10 (Some sample_store)
    = (Ok docs,
       (list_posts no_regex ClampToOne "doesnotexist" 10 (Some sample_store)).2)
    ∧ Forall2 (λ d out, to_post_out d = Ok out) docs [].
Proof.
  apply (list_posts_outcome no_regex ClampToOne "doesnotexist" 10
           (Some sample_store)
           (list_posts no_regex ClampToOne "doesnotexist" 10 (Some sample_store)).2
           (Ok [])).
  reflexivity.
Defined.

(** ** How creation and lookup compose *)

Lemma thread_by_id_None (o : oid) (st : store) :
  thread_exists o st = false →
  List.filter (λ d : doc, bool_decide (d !! "_id" = Some (VOid o)))
    (collection "thread" st) = [].
Proof.
  unfold thread_exists.
  induction (collection "thread" st) as [|d l IH]; [done|].
  cbn [existsb List.filter]. intros [H1 H2]%orb_false_elim.
  rewrite H1. by apply IH.
Qed.

Lemma stored_thread_id (d : doc) (o : oid) (t : Thread) :
  stored_thread d o t = true → d !! "_id" = Some (VOid o).
Proof.
  unfold stored_thread. intros H.
  repeat apply andb_prop in H as [H _]. by apply bool_decide_eq_true in H.
Qed.

(** X11.  A thread that was created is answered by [get_thread] on the
    string form of the identifier that was assigned to it, with the fields
    of the payload, provided no stored thread had that identifier before
    (with [create_document] as the gateway is modelled). *)
Theorem create_thread_then_get_thread
    (regex_search : string → string → string → bool)
    (st : store) (t : ThreadCreate) :
  thread_exists (assigned_oid (next_id st)) st = false →
  (create_thread t (Some st)).1
  = Ok {[ "id" := VOid (assigned_oid (next_id st)) ]}
  ∧ (get_thread regex_search (oid_str (assigned_oid (next_id st)))
       (create_thread t (Some st)).2).1
    = Ok {| ThreadOut_id := oid_str (assigned_oid (next_id st));
            ThreadOut_title := Thread_title t;
            ThreadOut_author := Thread_author t;
            ThreadOut_content := Thread_content t;
            ThreadOut_category := Thread_category t;
            ThreadOut_tags := Thread_tags t |}.
Proof.
  intros Hfresh.
  destruct (create_thread_stores st t) as (d & -> & Hd).
  split; [done|]. cbn [snd].
  pose proof (valid_assigned_oid (next_id st)) as Hi.
  pose proof (thread_by_id_None _ _ Hfresh) as Hnone.
  generalize dependent (assigned_oid (next_id st)). intros i Hfresh Hd Hi Hnone.
  rewrite get_thread_eval, (ObjectId_oid_str i Hi). cbv zeta.
  replace (thread_by_id i _) with (Some d).
  - cbn [fst]. by apply to_thread_out_stored.
  - unfold thread_by_id, collection at 1. cbn [collections].
    rewrite lookup_insert_eq. cbn [default from_option id].
    rewrite List.filter_app, Hnone. cbn [List.filter app].
    apply stored_thread_id in Hd.
    by rewrite bool_decide_eq_true_2.
Qed.

Lemma create_thread_then_get_thread_witness :
  (create_thread sample_thread (Some empty_store)).1
  = Ok {[ "id" := VOid (assigned_oid (next_id empty_store)) ]}
  ∧ (get_thread no_regex (oid_str (assigned_oid (next_id empty_store)))
       (create_thread sample_thread (Some empty_store)).2).1
    = Ok {| ThreadOut_id := oid_str (assigned_oid (next_id empty_store));
            ThreadOut_title := Thread_title sample_thread;
            ThreadOut_author := Thread_author sample_thread;
            ThreadOut_content := Thread_content sample_thread;
            ThreadOut_category := Thread_category sample_thread;
            ThreadOut_tags := Thread_tags sample_thread |}.
Proof.
  apply (create_thread_then_get_thread no_regex empty_store sample_thread).
  reflexivity.
Defined.

Lemma matches_thread_id
    (regex_search : string → string → string → bool) (s s' : string) (d : doc) :
  d !! "thread_id" = Some (VStr s) →
  matches regex_search (list_posts_filter s') d = bool_decide (s' = s).
Proof.
  intros Hd. unfold list_posts_filter. rewrite matches_singleton, Hd.
  cbn [cond_holds]. apply bool_decide_ext. split; congruence.
Qed.

(** X10.  A post that was created under a path identifier is selected by
    the filter of [list_posts] for a path identifier exactly when the two
    are the same string: identifiers are compared as text, so another
    spelling of the same native identifier (upper case) does not select
    it. *)
Theorem created_post_selected_by_exact_path
    (regex_search : string → string → string → bool)
    (st : store) (s : string) (o : oid) (p : PostCreate) :
  ObjectId s = Ok o → thread_exists o st = true →
  ∃ d : doc,
    posts (create_post regex_search s p (Some st)).2 = (posts (Some st) ++ [d])%list
    ∧ ∀ s' : string,
        matches regex_search (list_posts_filter s') d = bool_decide (s' = s).
Proof.
  intros Ho Ht.
  pose proof (create_post_success regex_search st s o p Ho Ht) as H.
  cbv zeta in H. rewrite H. clear H.
  generalize (assigned_oid (next_id st)). intros i.
  eexists. split.
  - unfold posts, persisted. cbn [snd collections].
    rewrite lookup_insert_eq. reflexivity.
  - intros s'. apply matches_thread_id.
    by rewrite lookup_insert_ne, lookup_insert_eq.
Qed.

Lemma created_post_selected_by_exact_path_witness :
  ∃ d : doc,
    posts (create_post no_regex "0000000000000000000000AB" sample_post
             (Some lettered_store)).2
    = (posts (Some lettered_store) ++ [d])%list
    ∧ ∀ s' : string,
        matches no_regex (list_posts_filter s') d
        = bool_decide (s' = "0000000000000000000000AB").
Proof.
  apply (created_post_selected_by_exact_path no_regex lettered_store
           "0000000000000000000000AB" (assigned_oid 171) sample_post);
    reflexivity.
Defined.

(** X12.  After a post was created under a path identifier that had no
    post yet, [list_posts] on the same path identifier, with a positive
    limit, answers with exactly that post: the assigned identifier, the
    path identifier, and the author and content of the payload (with the
    gateway as modelled). *)
Theorem create_post_then_list_posts
    (regex_search : string → string → string → bool) (policy : limit_policy)
    (st : store) (s : string) (o : oid) (p : PostCreate) (limit : Z) :
  ObjectId s = Ok o → thread_exists o st = true → 0 < limit →
  List.filter (matches regex_search (list_posts_filter s)) (collection "post" st) = [] →
  (list_posts regex_search policy s limit
     (create_post regex_search s p (Some st)).2).1
  = Ok [ {| PostOut_id := oid_str (assigned_oid (next_id st));
            PostOut_thread_id := s;
            PostOut_author := Post_author p;
            PostOut_content := Post_content p |} ].
Proof.
  intros Ho Ht Hl Hnone.
  pose proof (create_post_success regex_search st s o p Ho Ht) as H.
  cbv zeta in H. rewrite H. clear H. cbn [snd].
  generalize (assigned_oid (next_id st)). intros i.
  set (d := <["_id" := VOid i]> (<["thread_id" := VStr s]> (Post_model_dump p))).
  assert (d !! "_id" = Some (VOid i)) as H1 by apply lookup_insert_eq.
  assert (d !! "thread_id" = Some (VStr s)) as H2
    by (subst d; by rewrite lookup_insert_ne, lookup_insert_eq).
  assert (d !! "author" = Some (VStr (Post_author p))) as H3
    by (subst d; unfold Post_model_dump;
        repeat (rewrite lookup_insert_ne by done); apply lookup_insert_eq).
  assert (d !! "content" = Some (VStr (Post_content p))) as H4
    by (subst d; unfold Post_model_dump;
        repeat (rewrite lookup_insert_ne by done); apply lookup_insert_eq).
  assert (to_post_out d
          = Ok {| PostOut_id := oid_str i; PostOut_thread_id := s;
                  PostOut_author := Post_author p;
                  PostOut_content := Post_content p |}) as Hout.
  { apply (to_post_out_stored d i (VStr s)); [|reflexivity].
    unfold stored_post. by rewrite H1, H2, H3, H4, !bool_decide_eq_true_2. }
  clearbody d.
  unfold list_posts, mbind, M_bind, lift, get_documents.
  assert (checked_limit policy limit = Ok limit) as ->.
  { unfold checked_limit. destruct policy.
    - f_equal. lia.
    - destruct (Z.leb_spec limit 0); [lia|done]. }
  unfold store_find, collection. cbn [collections].
  rewrite lookup_insert_eq. cbn [default from_option id].
  fold (collection "post" st).
  rewrite List.filter_app, Hnone. cbn [List.filter app].
  rewrite (matches_thread_id regex_search s s d H2), bool_decide_eq_true_2 by done.
  destruct (Z.to_nat limit) as [|n] eqn:En; [lia|].
  cbn [take fst comprehension]. rewrite Hout, take_nil. reflexivity.
Qed.

Lemma create_post_then_list_posts_witness :
  (list_posts no_regex RejectNonPositive sample_thread_id 100
     (create_post no_regex sample_thread_id sample_post (Some sample_store)).2).1
  = Ok [ {| PostOut_id := oid_str (assigned_oid (next_id sample_store));
            PostOut_thread_id := sample_thread_id;
            PostOut_author := Post_author sample_post;
            PostOut_content := Post_content sample_post |} ].
Proof.
  apply (create_post_then_list_posts no_regex RejectNonPositive sample_store
           sample_thread_id (assigned_oid 0) sample_post 100);
    [reflexivity|reflexivity|lia|reflexivity].
Defined.

(** X13.  [create_post] writes to the post collection only, and only by
    adding: every other collection is as before, and the posts that were
    stored are still there, in their order, followed by at most one new
    document. *)
Theorem create_post_only_appends_posts
    (regex_search : string → string → string → bool)
    (s : string) (p : PostCreate) (db : option store) :
  (∀ c : string, c ≠ "post" →
     persisted (create_post regex_search s p db).2 !! c = persisted db !! c)
  ∧ (posts (create_post regex_search s p db).2 = posts db
     ∨ ∃ d : doc,
         posts (create_post regex_search s p db).2 = (posts db ++ [d])%list).
Proof.
  rewrite create_post_eval.
  destruct db as [st|]; [|by split; [|left]].
  destruct (ObjectId s) as [o|e]; [|by split; [|left]].
  cbv zeta. destruct (thread_exists o st); [|by split; [|left]].
  unfold store_insert_one. cbn [log collections next_id calls snd].
  split.
  - intros c Hc. unfold persisted. cbn [collections]. by rewrite lookup_insert_ne.
  - right. eexists. unfold posts, persisted. cbn [collections].
    rewrite lookup_insert_eq. reflexivity.
Qed.

(** ** The diagnostic endpoint *)

Lemma py_take_bound (n : nat) (s : string) : (py_len (py_take n s) ≤ n)%nat.
Proof.
  revert n. induction s as [|c s IH]; intros n; cbn [py_take py_len]; [lia|].
  destruct (is_continuation c) eqn:E.
  - cbn [py_len]. rewrite E. apply IH.
  - destruct n as [|n]; cbn [py_len]; [lia|]. rewrite E.
    specialize (IH n). lia.
Qed.

Lemma py_take_prefix (n : nat) (s : string) :
  ∃ rest : string, s = py_take n s ++ rest.
Proof.
  revert n. induction s as [|c s IH]; intros n; cbn [py_take].
  - by exists EmptyString.
  - destruct (is_continuation c).
    + destruct (IH n) as [rest Hr]. exists rest. rewrite Hr at 1. reflexivity.
    + destruct n as [|n].
      * by exists (String c s).
      * destruct (IH n) as [rest Hr]. exists rest. rewrite Hr at 1. reflexivity.
Qed.

Lemma py_take_all (n : nat) (s : string) : (py_len s ≤ n)%nat → py_take n s = s.
Proof.
  revert n. induction s as [|c s IH]; intros n; cbn [py_take py_len]; [done|].
  destruct (is_continuation c).
  - intros H. by rewrite IH.
  - destruct n as [|n]; [lia|]. intros H. rewrite IH; [done|lia].
Qed.

(** Reads a key of a response that was built by assignments. *)
Ltac read_response :=
  repeat (rewrite lookup_insert_ne by done); rewrite ?lookup_insert_eq.

Ltac diagnostic_cases db db_name list_collection_names :=
  unfold test_database, initial_response; cbv zeta;
  destruct db as [?st|];
    [destruct (db_name _) as [|?v|?msg];
       [destruct (list_collection_names _) as [?m|?names]
       |destruct (list_collection_names _) as [?m|?names]|]|].

(** X14.  In the answer of [test_database] the fields [database_url] and
    [database_name] tell only whether the environment variables
    DATABASE_URL and DATABASE_NAME are set to a non-empty text: what was
    written from the connection, [db.name] included, never reaches the
    answer. *)
Theorem test_database_env_fields
    (getenv : string → option string) (db_name : store → attribute)
    (list_collection_names : store → string + list string)
    (db : option store) :
  let mark (k : string) : value :=
    match getenv k with
    | Some s => if decide (s = EmptyString) then VStr "❌ Not Set" else VStr "✅ Set"
    | None => VStr "❌ Not Set"
    end in
  test_database getenv db_name list_collection_names db !! "database_url"
  = Some (mark "DATABASE_URL")
  ∧ test_database getenv db_name list_collection_names db !! "database_name"
    = Some (mark "DATABASE_NAME").
Proof.
  intros mark. subst mark. unfold test_database. cbv zeta.
  rewrite lookup_insert_ne, !lookup_insert_eq by done.
  split; f_equal.
  - destruct (getenv "DATABASE_URL") as [s|]; [|done]. cbn.
    destruct (decide (s = EmptyString)) as [->|Hs]; [done|].
    by rewrite bool_decide_eq_false_2.
  - destruct (getenv "DATABASE_NAME") as [s|]; [|done]. cbn.
    destruct (decide (s = EmptyString)) as [->|Hs]; [done|].
    by rewrite bool_decide_eq_false_2.
Qed.

(** X15.  The [collections] field of the answer of [test_database] holds
    at most ten names: the first ten that the store lists, and none when
    there is no connection, when reading [db.name] raises or when the
    listing raises. *)
Theorem test_database_collections
    (getenv : string → option string) (db_name : store → attribute)
    (list_collection_names : store → string + list string)
    (db : option store) :
  ∃ l : list string,
    test_database getenv db_name list_collection_names db !! "collections"
    = Some (VList l)
    ∧ (length l ≤ 10)%nat
    ∧ l = match db with
          | Some st =>
              match db_name st, list_collection_names st with
              | AttrRaises _, _ => []
              | _, inl _ => []
              | _, inr names => take 10 names
              end
          | None => []
          end.
Proof.
  diagnostic_cases db db_name list_collection_names;
    eexists; (split; [read_response; reflexivity|]);
    (split; [|reflexivity]);
    first [rewrite length_take; lia | cbn [length]; lia].
Qed.

(** X16.  The answer of [test_database] reads Connected exactly when there
    is a connection and reading [db.name] does not raise, also when the
    listing of the collections fails; and its [database] field is one of
    four texts, never the one it starts with: not initialized without a
    connection, Working when the listing succeeds, and otherwise an error
    text that ends with the first fifty characters of [str(e)]. *)
Theorem test_database_status
    (getenv : string → option string) (db_name : store → attribute)
    (list_collection_names : store → string + list string)
    (db : option store) :
  test_database getenv db_name list_collection_names db !! "connection_status"
  = Some (VStr match db with
               | Some st =>
                   match db_name st with
                   | AttrRaises _ => "Not Connected"
                   | _ => "Connected"
                   end
               | None => "Not Connected"
               end)
  ∧ test_database getenv db_name list_collection_names db !! "database"
    = Some (VStr match db with
                 | Some st =>
                     match db_name st, list_collection_names st with
                     | AttrRaises msg, _ => "❌ Error: " ++ py_take 50 msg
                     | _, inl msg => "⚠️  Connected but Error: " ++ py_take 50 msg
                     | _, inr _ => "✅ Connected & Working"
                     end
                 | None => "⚠️  Available but not initialized"
                 end)
  ∧ test_database getenv db_name list_collection_names db !! "database"
    ≠ Some (VStr "❌ Not Available")
  ∧ test_database getenv db_name list_collection_names db !! "backend"
    = Some (VStr "✅ Running").
Proof.
  diagnostic_cases db db_name list_collection_names;
    (split_and!; [by read_response|by read_response| |by read_response]);
    read_response; intros [= H]; revert H;
    try discriminate.
Qed.

(** X17.  The error text in the [database] field carries at most fifty
    characters of the exception's text, a prefix of it, and all of it when
    it is not longer. *)
Theorem test_database_error_text
    (getenv : string → option string) (db_name : store → attribute)
    (list_collection_names : store → string + list string)
    (st : store) (msg : string) :
  list_collection_names st = inl msg → attr_raises (db_name st) = false →
  ∃ shown rest : string,
    test_database getenv db_name list_collection_names (Some st) !! "database"
    = Some (VStr ("⚠️  Connected but Error: " ++ shown))
    ∧ msg = shown ++ rest
    ∧ (py_len shown ≤ 50)%nat
    ∧ ((py_len msg ≤ 50)%nat → shown = msg).
Proof.
  intros Hl Hn.
  destruct (py_take_prefix 50 msg) as [rest Hrest].
  exists (py_take 50 msg), rest. split_and!.
  - unfold test_database, initial_response. cbv zeta. rewrite Hl.
    destruct (db_name st) as [|v|m]; [by read_response|by read_response|].
    discriminate Hn.
  - exact Hrest.
  - apply py_take_bound.
  - apply py_take_all.
Qed.

Lemma test_database_error_text_witness :
  ∃ shown rest : string,
    test_database no_env named_forum failing_listing (Some empty_store) !! "database"
    = Some (VStr ("⚠️  Connected but Error: " ++ shown))
    ∧ "ServerSelectionTimeoutError: localhost:27017: [Errno 111] Connection refused"
      = shown ++ rest
    ∧ (py_len shown ≤ 50)%nat
    ∧ ((py_len "ServerSelectionTimeoutError: localhost:27017: [Errno 111] Connection refused"
        ≤ 50)%nat → shown = "ServerSelectionTimeoutError: localhost:27017: [Errno 111] Connection refused").
Proof.
  apply (test_database_error_text no_env named_forum failing_listing empty_store);
    reflexivity.
Defined.

(** X18.  The answer of [test_database] always has the same six keys. *)
Theorem test_database_keys
    (getenv : string → option string) (db_name : store → attribute)
    (list_collection_names : store → string + list string)
    (db : option store) :
  dom (test_database getenv db_name list_collection_names db)
  = {[ "backend"; "database"; "database_url"; "database_name";
       "connection_status"; "collections" ]}.
Proof.
  diagnostic_cases db db_name list_collection_names;
    rewrite !dom_insert_L, dom_empty_L; set_solver.
Qed.

(** ** The forms of identifiers, stored and answered *)

Lemma to_thread_out_id (d : doc) (out : ThreadOut) :
  to_thread_out d = Ok out → ThreadOut_id out = PyStr.str (doc_get d "_id").
Proof.
  unfold to_thread_out. intros H.
  apply result_bind_Ok in H as (i & [= <-] & H).
  repeat (apply result_bind_Ok in H as (? & _ & H)).
  by injection H as <-.
Qed.

Lemma to_post_out_ids (d : doc) (out : PostOut) :
  to_post_out d = Ok out →
  PostOut_id out = PyStr.str (doc_get d "_id")
  ∧ PostOut_thread_id out = PyStr.str (doc_get d "thread_id").
Proof.
  unfold to_post_out. intros H.
  apply result_bind_Ok in H as (i & [= <-] & H).
  apply result_bind_Ok in H as (j & [= <-] & H).
  repeat (apply result_bind_Ok in H as (? & _ & H)).
  by injection H as <-.
Qed.

Lemma ids_as_stored_elem (st : store) (c : string) (d : doc) :
  ids_as_stored (Some st) = true → d ∈ collection c st →
  native_id (doc_get d "_id") = true
  ∧ (c = "post" → string_id (doc_get d "thread_id") = true).
Proof.
  unfold ids_as_stored, persisted, collection.
  intros H%bool_decide_eq_true Hd.
  destruct (collections st !! c) as [docs|] eqn:E; [|by apply elem_of_nil in Hd].
  cbn in Hd. specialize (H c docs E). cbn beta in H.
  unfold docs_as_stored in H. rewrite forallb_forall in H.
  specialize (H d). apply list_elem_of_In in Hd. specialize (H Hd).
  apply andb_prop in H as [H1 H2]. split; [done|].
  intros ->. by rewrite String.eqb_refl in H2.
Qed.

Lemma ids_as_stored_append (st : store) (c : string) (d : doc) (n : N)
    (l : list store_call) :
  ids_as_stored (Some st) = true → docs_as_stored c [d] = true →
  ids_as_stored
    (Some {| collections := <[c := (collection c st ++ [d])%list]> (collections st);
             next_id := n; calls := l |}) = true.
Proof.
  unfold ids_as_stored, persisted. cbn [collections].
  intros H%bool_decide_eq_true Hd. apply bool_decide_eq_true.
  apply map_Forall_insert_2; [|done].
  unfold docs_as_stored in *. rewrite forallb_app, Hd, andb_true_r.
  unfold collection. destruct (collections st !! c) as [docs|] eqn:E; [|done].
  exact (H c docs E).
Qed.

Lemma native_id_inv (v : value) :
  native_id v = true → ∃ o, v = VOid o ∧ valid_oid o.
Proof.
  destruct v as [| |o|]; try discriminate. cbn. intros H%Nat.eqb_eq. by exists o.
Qed.

(** C5 as stated fails, on both counts: the [thread_id] stamped onto a
    created post is the string of the path, not a native identifier; and
    the [id] in the answer of [create_post] is the identifier as the
    gateway returned it, not a string. *)
Lemma stamped_reference_and_answered_id :
  ¬ (∀ d : doc,
       d ∈ posts (create_post no_regex sample_thread_id sample_post
                    (Some sample_store)).2 →
       is_native (doc_get d "thread_id") = true)
  ∧ ¬ (∀ (r : gmap string value) (v : value),
         (create_post no_regex sample_thread_id sample_post
            (Some sample_store)).1 = Ok r →
         r !! "id" = Some v → string_id v = true).
Proof.
  split.
  - intros H.
    specialize (H (<["_id" := VOid (assigned_oid 1)]>
                     (<["thread_id" := VStr sample_thread_id]>
                        (Post_model_dump sample_post)))).
    assert (is_native (VStr sample_thread_id) = true) as E; [|discriminate E].
    apply H. vm_compute. apply list_elem_of_here.
  - intros H.
    specialize (H {[ "id" := VOid (assigned_oid 1) ]} (VOid (assigned_oid 1))
                  eq_refl eq_refl).
    discriminate H.
Qed.

(** C5, amended.  The [_id] of every persisted document is a native
    identifier and stays one: both writers keep it so, whatever their
    outcome.  The [thread_id] stamped onto a post at creation is the string
    of the path, not a native identifier, and every stored post holds it
    as a string.  Every identifier in a Thread or Post output body is a
    string: the [id] is the string form of the native [_id], and a post's
    [thread_id] is the stored string.  The [id] in the answer of a create
    handler is the native identifier that the gateway returned, passed on
    without encoding. *)
Theorem persisted_identifier_forms
    (regex_search : string → string → string → bool)
    (st : store) (t : ThreadCreate) (s : string) (p : PostCreate) :
  ids_as_stored (Some st) = true →
  ids_as_stored (create_thread t (Some st)).2 = true
  ∧ ids_as_stored (create_post regex_search s p (Some st)).2 = true
  ∧ (∀ d : doc,
       posts (create_post regex_search s p (Some st)).2
       = (posts (Some st) ++ [d])%list →
       d !! "thread_id" = Some (VStr s) ∧ is_native (doc_get d "thread_id") = false)
  ∧ (∀ (c : string) (d : doc),
       d ∈ collection c st →
       ∃ o : oid,
         d !! "_id" = Some (VOid o) ∧ valid_oid o
         ∧ (∀ out, to_thread_out d = Ok out → ThreadOut_id out = oid_str o)
         ∧ (∀ out, to_post_out d = Ok out →
              PostOut_id out = oid_str o
              ∧ (c = "post" → d !! "thread_id" = Some (VStr (PostOut_thread_id out)))))
  ∧ (∀ r, (create_thread t (Some st)).1 = Ok r →
          ∃ i : oid, r = {[ "id" := VOid i ]} ∧ valid_oid i)
  ∧ (∀ r, (create_post regex_search s p (Some st)).1 = Ok r →
          ∃ i : oid, r = {[ "id" := VOid i ]} ∧ valid_oid i).
Proof.
  intros Hst.
  pose proof (valid_assigned_oid (next_id st)) as Hi.
  (* what create_post does, by cases *)
  assert ((∃ l : list store_call,
             create_post regex_search s p (Some st)
             = (Ok {[ "id" := VOid (assigned_oid (next_id st)) ]},
                Some {| collections :=
                          <["post" := (collection "post" st
                                       ++ [<["_id" := VOid (assigned_oid (next_id st))]>
                                             (<["thread_id" := VStr s]>
                                                (Post_model_dump p))])%list]>
                            (collections st);
                        next_id := N.succ (next_id st);
                        calls := l |}))
          ∨ (∃ e db', create_post regex_search s p (Some st) = (Raise e, db')
                      ∧ persisted db' = persisted (Some st))) as Hcp.
  { destruct (ObjectId s) as [o|e] eqn:Ho.
    - destruct (thread_exists o st) eqn:Ht.
      + left. eexists.
        by rewrite (create_post_success regex_search st s o p Ho Ht).
      + right. rewrite (create_post_absent regex_search st s o p Ho Ht). eauto.
    - right. rewrite create_post_eval, Ho. eauto. }
  destruct (create_thread_stores st t) as (dt & Hct & Hdt).
  set (i := assigned_oid (next_id st)) in *. clearbody i.
  split_and!.
  - rewrite Hct. cbn [snd]. apply ids_as_stored_append; [done|].
    unfold docs_as_stored. cbn [forallb String.eqb].
    unfold doc_get. rewrite (stored_thread_id dt i t Hdt). cbn.
    unfold valid_oid in Hi. by rewrite Hi.
  - destruct Hcp as [[l ->]|(e & db' & -> & Hp)].
    + cbn [snd]. apply ids_as_stored_append; [done|].
      unfold docs_as_stored. cbn [forallb]. unfold doc_get.
      rewrite lookup_insert_eq, lookup_insert_ne, lookup_insert_eq by done.
      cbn. unfold valid_oid in Hi. by rewrite Hi.
    + cbn [snd]. unfold ids_as_stored in *. by rewrite Hp.
  - intros d Hd. destruct Hcp as [[l Hcp]|(e & db' & Hcp & Hp)]; rewrite Hcp in Hd.
    + unfold posts, persisted in Hd. cbn [snd collections] in Hd.
      rewrite lookup_insert_eq in Hd. cbn in Hd.
      apply app_inj_tail in Hd as [_ <-].
      unfold doc_get. by rewrite lookup_insert_ne, lookup_insert_eq.
    + cbn [snd] in Hd. unfold posts in Hd. rewrite Hp in Hd.
      apply (f_equal length) in Hd. rewrite length_app in Hd. cbn in Hd. lia.
  - intros c d Hd.
    destruct (ids_as_stored_elem st c d Hst Hd) as [Hn Hs].
    apply native_id_inv in Hn as (o & Ho & Hv).
    assert (d !! "_id" = Some (VOid o)) as Hid.
    { unfold doc_get in Ho. destruct (d !! "_id") as [v|]; cbn in Ho; congruence. }
    exists o. split_and!; [done|done| |].
    + intros out Hout. apply to_thread_out_id in Hout. by rewrite Hout, Ho.
    + intros out Hout. apply to_post_out_ids in Hout as [H1 H2].
      rewrite H1, Ho. split; [done|]. intros Hc. specialize (Hs Hc).
      unfold doc_get in Hs, H2.
      destruct (d !! "thread_id") as [[]|]; cbn in Hs, H2; try discriminate.
      by rewrite H2.
  - intros r Hr. rewrite Hct in Hr. injection Hr as <-. by exists i.
  - intros r Hr. destruct Hcp as [[l Hcp]|(e & db' & Hcp & _)]; rewrite Hcp in Hr.
    + injection Hr as <-. by exists i.
    + discriminate Hr.
Qed.

Lemma persisted_identifier_forms_witness :
  ids_as_stored (Some sample_store) = true
  ∧ ids_as_stored (create_thread sample_thread (Some sample_store)).2 = true
  ∧ ids_as_stored
      (create_post no_regex sample_thread_id sample_post (Some sample_store)).2
    = true.
Proof.
  assert (ids_as_stored (Some sample_store) = true) as H by reflexivity.
  split; [exact H|].
  destruct (persisted_identifier_forms no_regex sample_store sample_thread
              sample_thread_id sample_post H) as (H1 & H2 & _).
  by split.
Defined.

(** The example of the spec: the title Hello World is found by hello. *)
Example hello_finds_hello_world :
  matches literal_search (list_threads_filter (Some "hello") None) hello_world_doc
  = true
  ∧ matches literal_search (list_threads_filter (Some "bye") None) hello_world_doc
    = false.
Proof. split; reflexivity. Qed.
